(** * Personal finance assistant: analytics engine and transaction endpoints

    A shallow embedding of the analytics aggregation found in the server
    ([GET /analytics]) and in the client ([calculateAnalytics]), and of the
    [GET /transactions], [POST /transactions] and [POST /process-receipt]
    handlers, together with the properties the specification states for
    them.

    Conventions of the embedding.
    - A JavaScript [number] is an abstract carrier with the literal [0],
      binary [+] and [-], and [ToBoolean]; every definition is generic in
      it, so the results hold for any arithmetic, and the laws of exact
      arithmetic are required only where a statement needs them.
    - A JavaScript object is a list of own properties in creation order.
      The two dictionaries of the analytics computation are plain objects
      ([{}]) indexed by free text, so a lookup that finds no own property
      goes on to the members inherited from [Object.prototype], and an
      assignment to [__proto__] meets the inherited setter.
    - Strings are sequences of one-byte characters, standing for the code
      units of the source strings.
    - The key-value store is a finite map from keys to JSON values. *)

From stdpp Require Import gmap strings list fin_maps sorting.
From stdpp Require Import pretty.
From Stdlib Require Import ZArith Ascii String.

Set Warnings "-register-all".

Local Open Scope string_scope.
Local Open Scope list_scope.

(** ** Numbers *)

(** The operations of [number] the program uses, and the texts the host
    gives when [+] meets an operand that is not a number. *)
Class JsNumber := {
  number : Type;
  num_zero : number;                      (* the literal 0 *)
  num_add : number → number → number;     (* a + b on two numbers *)
  num_sub : number → number → number;     (* a - b *)
  num_truthy : number → bool;             (* ToBoolean: false on 0 and NaN *)
  num_to_string : number → string;        (* ToString of a number *)
  member_to_string : string → string;     (* ToString of Object.prototype[k] *)
  num_sub_zero_zero : num_sub num_zero num_zero = num_zero;   (* 0 - 0 is 0 *)
  num_truthy_zero : num_truthy num_zero = false;              (* 0 is falsy *)
}.

(** Exact arithmetic: addition is a commutative monoid and [0] is the only
    falsy number (there is no NaN). *)
Class ExactArith (N : JsNumber) : Prop := {
  num_add_assoc : ∀ a b c : number, num_add a (num_add b c) = num_add (num_add a b) c;
  num_add_comm : ∀ a b : number, num_add a b = num_add b a;
  num_add_zero_l : ∀ a : number, num_add num_zero a = a;
  num_falsy_zero : ∀ a : number, num_truthy a = false → a = num_zero;
}.

(** The text of a member of [Object.prototype] as V8 prints it: the
    constructor is the function [Object], [__proto__] reads as the
    prototype itself, and every other member is a function of its own
    name. *)
Definition sample_member_to_string (k : string) : string :=
  if decide (k = "__proto__") then "[object Object]"
  else if decide (k = "constructor") then "function Object() { [native code] }"
  else "function " +:+ k +:+ "() { [native code] }".

(** Integers (amounts counted in the smallest currency unit) are an
    instance of exact arithmetic. *)
Definition ZNumber : JsNumber :=
  {| number := Z; num_zero := 0%Z; num_add := Z.add; num_sub := Z.sub;
     num_truthy := fun z => negb (Z.eqb z 0);
     num_to_string := pretty;
     member_to_string := sample_member_to_string;
     num_sub_zero_zero := eq_refl; num_truthy_zero := eq_refl |}.

(** ** Objects used as dictionaries *)

Section JsObject.
Context {V : Type}.

(** Own properties in creation order; keys are pairwise distinct. *)
Definition jsobj := list (string * V).

(** [o[k]]: [None] stands for [undefined]. *)
Fixpoint obj_get (o : jsobj) (k : string) : option V :=
  match o with
  | [] => None
  | (k', v) :: o' => if decide (k' = k) then Some v else obj_get o' k
  end.

(** [o[k] = v]: an existing property keeps its place, a new one goes
    last. *)
Fixpoint obj_set (o : jsobj) (k : string) (v : V) : jsobj :=
  match o with
  | [] => [(k, v)]
  | (k', v') :: o' =>
      if decide (k' = k) then (k', v) :: o' else (k', v') :: obj_set o' k v
  end.

Definition obj_keys (o : jsobj) : list string := fst <$> o.
End JsObject.
Arguments jsobj V : clear implicits.

(** *** Enumeration order of own properties *)

Definition digit_val (c : ascii) : option N :=
  let n := N_of_ascii c in
  if (48 <=? n)%N && (n <=? 57)%N then Some (n - 48)%N else None.

Fixpoint digits_val (acc : N) (s : string) : option N :=
  match s with
  | EmptyString => Some acc
  | String c s' =>
      match digit_val c with
      | Some d => digits_val (10 * acc + d)%N s'
      | None => None
      end
  end.

(** [array_index k] is [Some n] when [k] is the canonical decimal form of
    an integer [n] with [0 <= n < 2^32 - 1]. *)
Definition array_index (k : string) : option N :=
  match k with
  | EmptyString => None
  | String c rest =>
      if bool_decide (c = "0"%char) && negb (bool_decide (rest = EmptyString)) then None
      else if (10 <? String.length k)%nat then None
      else match digits_val 0 k with
           | Some n => if (n <? 4294967295)%N then Some n else None
           | None => None
           end
  end.

Section Sorting.
Context {A : Type}.

(** [Array.prototype.sort(cmp)]: a stable sort, here by insertion;
    [cmp a b = Gt] is a positive result of the comparator (a goes after
    b). Every stable sort returns this list when the comparator is a
    consistent one. *)
Fixpoint insert_sorted (cmp : A → A → comparison) (x : A) (l : list A) : list A :=
  match l with
  | [] => [x]
  | y :: l' =>
      match cmp x y with
      | Gt => y :: insert_sorted cmp x l'
      | _ => x :: l
      end
  end.

Definition js_sort (cmp : A → A → comparison) (l : list A) : list A :=
  foldr (insert_sorted cmp) [] l.
End Sorting.

Section OwnProperties.
Context {V : Type}.

Definition index_cmp (a b : string * V) : comparison :=
  match array_index a.1, array_index b.1 with
  | Some m, Some n => (m ?= n)%N
  | _, _ => Eq
  end.

(** Own properties in the order of enumeration: array indices in
    ascending numeric order, then the other keys in creation order. *)
Definition own_entries (o : jsobj V) : list (string * V) :=
  js_sort index_cmp (filter (λ e, is_Some (array_index e.1)) o)
    ++ filter (λ e, ¬ is_Some (array_index e.1)) o.

(** [Object.values(o)] *)
Definition Object_values (o : jsobj V) : list V := snd <$> own_entries o.

(** [Object.keys(o)], the first components of [Object.entries(o)]. *)
Definition Object_keys (o : jsobj V) : list string := fst <$> own_entries o.
End OwnProperties.

(** The order in which an object enumerates keys created in the order
    [ks]. *)
Definition enumeration_order (ks : list string) : list string :=
  Object_keys ((λ k, (k, ())) <$> ks).

(** *** Members inherited from [Object.prototype]

    The names of the members of [Object.prototype], as the standard of the
    language and its annex for web browsers define them. Every plain
    object finds these by lookup without having them as own properties.
    All are writable functions, except [__proto__]: an accessor whose
    getter returns the prototype and whose setter changes the prototype
    when it is given an object or null and does nothing otherwise.
    Functions and objects are truthy. The definitions below take a host
    that provides all of these members. *)
Definition Object_prototype_names : list string :=
  ["constructor"; "__defineGetter__"; "__defineSetter__"; "hasOwnProperty";
   "__lookupGetter__"; "__lookupSetter__"; "isPrototypeOf"; "propertyIsEnumerable";
   "toString"; "valueOf"; "__proto__"; "toLocaleString"].

(** ** The analytics computation *)

(** [type: 'income' | 'expense'] *)
Inductive TransactionType := Income | Expense.

Global Instance TransactionType_eq_dec : EqDecision TransactionType.
Proof. solve_decision. Defined.

Section Analytics.
Context `{Num : JsNumber}.

(** [String.prototype.localeCompare], the collation of the host; only the
    sign of its result is observed. *)
Variable localeCompare : string → string → comparison.

(** The value stored under a [transaction:<id>] key. *)
Record TransactionData := {
  type : TransactionType;
  amount : number;
  category : string;
  description : string;
  date : string;
  createdAt : string;
  source : string;
  vendor : option string;
}.

(** [interface Transaction]: the stored fields together with the id. *)
Record Transaction := { id : string; data :> TransactionData }.

(** An element of the prefix scan of the store. *)
Record KvItem := { key : string; value : TransactionData }.

(** An element of [monthlyData]. *)
Record MonthRecord := { month : string; income : number; expense : number }.

(** A value of the category dictionary. It is declared a number; [+]
    makes a string of it when its left operand is not a number. *)
Inductive CategoryValue := Amount (n : number) | Text (s : string).

(** [interface Analytics] *)
Record Analytics := {
  totalIncome : number;
  totalExpense : number;
  balance : number;
  expensesByCategory : jsobj CategoryValue;
  monthlyData : list MonthRecord;
}.

(** ToBoolean and ToString of a value of the dictionary. *)
Definition value_truthy (v : CategoryValue) : bool :=
  match v with
  | Amount n => num_truthy n
  | Text s => negb (bool_decide (s = ""))
  end.

Definition value_to_string (v : CategoryValue) : string :=
  match v with
  | Amount n => num_to_string n
  | Text s => s
  end.

(** [x + y] on two values of the dictionary: the sum of two numbers, the
    concatenation of the texts otherwise. *)
Definition value_plus (x y : CategoryValue) : CategoryValue :=
  match x, y with
  | Amount a, Amount b => Amount (num_add a b)
  | _, _ => Text (value_to_string x +:+ value_to_string y)
  end.

(** What the left operand of [(acc[k] || 0) + t.amount] can be: a value of
    the dictionary, or the member of [Object.prototype] of the given
    name. *)
Inductive Operand := Prim (v : CategoryValue) | Member (k : string).

(** [acc[k] || 0]: the own property when there is one and it is truthy,
    else the inherited member when there is one, else [0]. *)
Definition get_or_zero (acc : jsobj CategoryValue) (k : string) : Operand :=
  match obj_get acc k with
  | Some v => if value_truthy v then Prim v else Prim (Amount num_zero)
  | None => if decide (k ∈ Object_prototype_names) then Member k
            else Prim (Amount num_zero)
  end.

(** [x + a] for a number [a]: an inherited member is turned into its text
    first. *)
Definition operand_plus (x : Operand) (a : number) : CategoryValue :=
  match x with
  | Prim v => value_plus v (Amount a)
  | Member k => Text (member_to_string k +:+ num_to_string a)
  end.

(** [acc[k] = v] for a number or string [v]: the inherited setter of
    [__proto__] takes the assignment and ignores the value; under any
    other key the value becomes an own property, or replaces it. *)
Definition assign (acc : jsobj CategoryValue) (k : string) (v : CategoryValue)
  : jsobj CategoryValue :=
  if decide (k = "__proto__") then acc else obj_set acc k v.

(** [acc[t.category] = (acc[t.category] || 0) + t.amount; return acc] *)
Definition add_to_category (acc : jsobj CategoryValue) (t : TransactionData)
  : jsobj CategoryValue :=
  assign acc (category t) (operand_plus (get_or_zero acc (category t)) (amount t)).

(** [rec[ty] += a] on a month record. *)
Definition add_to_field (r : MonthRecord) (ty : TransactionType) (a : number) : MonthRecord :=
  match ty with
  | Income => {| month := month r; income := num_add (income r) a; expense := expense r |}
  | Expense => {| month := month r; income := income r; expense := num_add (expense r) a |}
  end.

(** The body of the monthly reduction. [!acc[month]] holds when the
    lookup finds neither an own bucket (a record is an object, hence
    truthy) nor an inherited member; the bucket is then created with zero
    sums. [acc[month][t.type] += t.amount] increases the field of the own
    bucket in place; when the lookup finds an inherited member instead,
    the update lands on that member and the dictionary stays as it is. A
    month has at most seven characters, so the only member it can name is
    the function [valueOf], on which the new field is read by nothing. *)
Definition add_to_month (acc : jsobj MonthRecord) (t : TransactionData) : jsobj MonthRecord :=
  let month := substring 0 7 (date t) in
  match obj_get acc month with
  | Some r => obj_set acc month (add_to_field r (type t) (amount t))
  | None =>
      if decide (month ∈ Object_prototype_names) then acc
      else obj_set acc month
             (add_to_field {| month := month; income := num_zero; expense := num_zero |}
                (type t) (amount t))
  end.

(** [(a, b) => a.month.localeCompare(b.month)] *)
Definition by_month (a b : MonthRecord) : comparison :=
  localeCompare (month a) (month b).

(** The client: [calculateAnalytics]. *)
Definition calculateAnalytics (transactions : list Transaction) : Analytics :=
  let totalIncome :=
    foldl (λ sum (t : Transaction), num_add sum (amount t)) num_zero
      (filter (λ t : Transaction, type t = Income) transactions) in
  let totalExpense :=
    foldl (λ sum (t : Transaction), num_add sum (amount t)) num_zero
      (filter (λ t : Transaction, type t = Expense) transactions) in
  let expensesByCategory :=
    foldl (λ acc (t : Transaction), add_to_category acc t) []
      (filter (λ t : Transaction, type t = Expense) transactions) in
  let monthlyData :=
    foldl (λ acc (t : Transaction), add_to_month acc t) [] transactions in
  {| totalIncome := totalIncome;
     totalExpense := totalExpense;
     balance := num_sub totalIncome totalExpense;
     expensesByCategory := expensesByCategory;
     monthlyData := js_sort by_month (Object_values monthlyData) |}.

(** The server: the body of the [GET /analytics] handler, applied to the
    result of the prefix scan. *)
Definition analytics_handler (transactions : list KvItem) : Analytics :=
  let transactionData := value <$> transactions in
  let totalIncome :=
    foldl (λ sum (t : TransactionData), num_add sum (amount t)) num_zero
      (filter (λ t : TransactionData, type t = Income) transactionData) in
  let totalExpense :=
    foldl (λ sum (t : TransactionData), num_add sum (amount t)) num_zero
      (filter (λ t : TransactionData, type t = Expense) transactionData) in
  let expensesByCategory :=
    foldl add_to_category []
      (filter (λ t : TransactionData, type t = Expense) transactionData) in
  let monthlyData := foldl add_to_month [] transactionData in
  {| totalIncome := totalIncome;
     totalExpense := totalExpense;
     balance := num_sub totalIncome totalExpense;
     expensesByCategory := expensesByCategory;
     monthlyData := js_sort by_month (Object_values monthlyData) |}.

(** The stored form of a client transaction: its key and its fields. *)
Definition to_item (t : Transaction) : KvItem :=
  {| key := "transaction:" +:+ id t; value := data t |}.
End Analytics.

(** ** What the specification says of the aggregates *)

Section AnalyticsSpec.
Context `{Num : JsNumber}.

(** The sum of the amounts of a sequence of transactions, taken in order
    from [0]. *)
Definition sum_amounts (l : list TransactionData) : number :=
  foldl (λ sum t, num_add sum (amount t)) num_zero l.

(** The month bucket of a transaction: the first seven characters of its
    date. *)
Definition month_of (t : TransactionData) : string := substring 0 7 (date t).

(** The sum of the amounts of the transactions of type [ty] whose bucket
    is [m]; [0] when there is none. *)
Definition bucket_sum (ty : TransactionType) (m : string) (l : list TransactionData) : number :=
  sum_amounts (filter (λ t, type t = ty ∧ month_of t = m) l).

(** The record of bucket [m] over the transactions [l]. *)
Definition bucket_record (m : string) (l : list TransactionData) : MonthRecord :=
  {| month := m; income := bucket_sum Income m l; expense := bucket_sum Expense m l |}.

(** [sum(expensesByCategory.values())]: the values added up with [+],
    from [0]. *)
Definition sum_values (o : jsobj CategoryValue) : CategoryValue :=
  foldl value_plus (Amount num_zero) (Object_values o).

(** The collation agrees with the order of the character codes on the
    given keys. *)
Definition collates_by_code (localeCompare : string → string → comparison)
    (keys : list string) : Prop :=
  ∀ a b, a ∈ keys → b ∈ keys → localeCompare a b = String.compare a b.

(** The collation never puts two of the given keys after each other. *)
Definition collation_asymmetric (localeCompare : string → string → comparison)
    (keys : list string) : Prop :=
  ∀ a b, a ∈ keys → b ∈ keys → localeCompare a b = Gt → localeCompare b a ≠ Gt.

(** [md] is the monthly series of the transactions [l]: one record per
    distinct bucket of [l] and no other, each with the sums of its bucket;
    no record is followed by one that the collation puts before it, as
    long as the collation is asymmetric on the buckets; and the records
    are in ascending order of the month strings, character code by
    character code, as long as the collation is that order on the
    buckets. *)
Definition monthly_series (localeCompare : string → string → comparison)
    (l : list TransactionData) (md : list MonthRecord) : Prop :=
  NoDup (month <$> md)
  ∧ (∀ m, m ∈ month <$> md ↔ ∃ t, t ∈ l ∧ month_of t = m)
  ∧ (∀ r, r ∈ md →
       income r = bucket_sum Income (month r) l
       ∧ expense r = bucket_sum Expense (month r) l)
  ∧ (collation_asymmetric localeCompare (month_of <$> l) →
       Sorted (λ a b, localeCompare (month a) (month b) ≠ Gt) md)
  ∧ (collates_by_code localeCompare (month_of <$> l) →
       StronglySorted (λ a b, (month a ≤ month b)%string) md).

(** The two computations written once, over the stored fields. *)
Definition aggregate (localeCompare : string → string → comparison)
    (l : list TransactionData) : Analytics :=
  {| totalIncome := sum_amounts (filter (λ t, type t = Income) l);
     totalExpense := sum_amounts (filter (λ t, type t = Expense) l);
     balance := num_sub (sum_amounts (filter (λ t, type t = Income) l))
                        (sum_amounts (filter (λ t, type t = Expense) l));
     expensesByCategory := foldl add_to_category [] (filter (λ t, type t = Expense) l);
     monthlyData := js_sort (by_month localeCompare)
                      (Object_values (foldl add_to_month [] l)) |}.
End AnalyticsSpec.

(** ** JSON values and the request handlers *)

(** The outcome of a block that may throw; [Throw m] carries the message
    of the exception. *)
Inductive completion (A : Type) : Type :=
  | Ok (a : A)
  | Throw (message : string).
Arguments Ok {A} a.
Arguments Throw {A} message.

Global Instance completion_ret : MRet completion := λ A a, Ok a.
Global Instance completion_bind : MBind completion := λ A B f m,
  match m with
  | Ok a => f a
  | Throw e => Throw e
  end.

(** [s.split('T')[0]] *)
Fixpoint before_T (s : string) : string :=
  match s with
  | EmptyString => EmptyString
  | String c s' => if decide (c = "T"%char) then EmptyString else String c (before_T s')
  end.

(** [s.replace(pat, rep)] for a string pattern: the first occurrence only. *)
Fixpoint replace_first (pat rep s : string) : string :=
  if String.prefix pat s then rep +:+ substring (String.length pat) (String.length s) s
  else match s with
       | EmptyString => EmptyString
       | String c s' => String c (replace_first pat rep s')
       end.

Definition is_js_space (c : ascii) : bool :=
  let n := N_of_ascii c in
  bool_decide (n ∈ [9; 10; 11; 12; 13; 32; 160]%N).

Fixpoint trim_start (s : string) : string :=
  match s with
  | EmptyString => EmptyString
  | String c s' => if is_js_space c then trim_start s' else s
  end.

(** [s.trim()] *)
Definition trim (s : string) : string :=
  String.rev (trim_start (String.rev (trim_start s))).

Section Handlers.
Context `{Num : JsNumber}.

Inductive jsval : Type :=
  | JUndefined
  | JNull
  | JBool (b : bool)
  | JNum (x : number)
  | JStr (s : string)
  | JArr (l : list jsval)
  | JObj (o : list (string * jsval)).

(** The global [parseFloat] and [JSON.parse] of the host ([None]: a
    SyntaxError is thrown), and the message of an exception the runtime
    raises by itself (TypeError, SyntaxError, network failure). *)
Variable parseFloat : jsval → number.
Variable JSON_parse : string → option jsval.
Variable host_message : string.

(** [ToBoolean] *)
Definition truthy (v : jsval) : bool :=
  match v with
  | JUndefined | JNull => false
  | JBool b => b
  | JNum x => num_truthy x
  | JStr s => negb (bool_decide (s = ""))
  | JArr _ | JObj _ => true
  end.

(** [a || b] *)
Definition js_or (a b : jsval) : jsval := if truthy a then a else b.

(** [v[k]] for a key that no built-in prototype defines; reading a
    property of [null] or [undefined] throws a TypeError. *)
Definition get_prop (v : jsval) (k : string) : completion jsval :=
  match v with
  | JUndefined | JNull => Throw host_message
  | JObj o => Ok (default JUndefined (obj_get o k))
  | JArr l =>
      Ok (match array_index k with
          | Some n => default JUndefined (l !! N.to_nat n)
          | None => JUndefined
          end)
  | JStr s =>
      Ok (match array_index k with
          | Some n => match String.get (N.to_nat n) s with
                      | Some c => JStr (String c EmptyString)
                      | None => JUndefined
                      end
          | None => JUndefined
          end)
  | JBool _ | JNum _ => Ok JUndefined
  end.

(** [v?.[k]]: [undefined] on [null] and [undefined]. *)
Definition get_prop_opt (v : jsval) (k : string) : jsval :=
  match get_prop v k with
  | Ok x => x
  | Throw _ => JUndefined
  end.

(** The own enumerable properties copied by [{...v}]. *)
Definition spread_entries (v : jsval) : list (string * jsval) :=
  match v with
  | JObj o => own_entries o
  | JArr l => imap (λ i x, (pretty i, x)) l
  | JStr s => imap (λ i c, (pretty i, JStr (String c EmptyString))) (list_ascii_of_string s)
  | _ => []
  end.

(** [{...target, ...v}] *)
Definition spread_into (target : jsobj jsval) (v : jsval) : jsobj jsval :=
  foldl (λ o e, obj_set o e.1 e.2) target (spread_entries v).

(** The value read for the field [k] of a request object; [undefined]
    when the field is absent. *)
Definition field (o : jsobj jsval) (k : string) : jsval :=
  default JUndefined (obj_get o k).

(** [c.json(body, status)] *)
Record response := { status : nat; body : jsval }.

Definition error_envelope (message : string) : jsval :=
  JObj [("error", JStr message)].

(** *** The store *)

(** Modelled from the spec: the key-value module ([kv_store.tsx]) is an
    opaque persistent mapping from string key to JSON value with get,
    set, delete and prefix scan; a scan yields the stored key/value
    pairs whose key starts with the prefix, in no particular order. *)
Definition kv_set (k : string) (v : jsval) (store : gmap string jsval) : gmap string jsval :=
  <[k := v]> store.

Definition kv_del (k : string) (store : gmap string jsval) : gmap string jsval :=
  delete k store.

Definition kv_getByPrefix (p : string) (store : gmap string jsval) : list (string * jsval) :=
  filter (λ item, String.prefix p item.1 = true) (map_to_list store).

(** The outcome of [await fetch(url, init)]: the call rejects, or it
    yields a response with its [ok] flag, its [status] and the outcome of
    [await response.json()] ([None]: the body is not JSON). *)
Inductive fetch_outcome :=
  | NetworkFailure
  | FetchResponse (ok : bool) (status : nat) (json : option jsval).

(** What a handler reads from its surroundings besides the request and
    the store. *)
Record Env := {
  Date_now : string;            (* Date.now(), in decimal *)
  Math_random_36 : string;      (* Math.random().toString(36) *)
  toISOString_date : string;    (* new Date().toISOString() of the date field *)
  toISOString_createdAt : string; (* new Date().toISOString() of createdAt *)
  GEMINI_API_KEY : option string; (* Deno.env.get('GEMINI_API_KEY') *)
  fetch : string → jsval → fetch_outcome;
    (* fetch(url, init), as a function of the url and of the image data
       carried by the request; the rest of the request is constant *)
}.

(** [`${Date.now()}_${Math.random().toString(36).substr(2, 9)}`] *)
Definition new_transactionId (env : Env) : string :=
  Date_now env +:+ "_" +:+ substring 2 9 (Math_random_36 env).

(** [await x.json()] on a request or a response: [None] is a body that is
    not JSON, for which the call rejects. *)
Definition await_json (req : option jsval) : completion jsval :=
  match req with
  | Some v => Ok v
  | None => Throw host_message
  end.

(** *** GET /transactions *)

Definition format_item (item : string * jsval) : jsval :=
  JObj (spread_into [("id", JStr (replace_first "transaction:" "" item.1))] item.2).

Definition get_transactions (store : gmap string jsval) : response :=
  let transactions := kv_getByPrefix "transaction:" store in
  let formattedTransactions := format_item <$> transactions in
  {| status := 200; body := JObj [("transactions", JArr formattedTransactions)] |}.

(** The transactions a client reads in the answer of [GET /transactions]. *)
Definition listed_transactions (store : gmap string jsval) : list jsval :=
  format_item <$> kv_getByPrefix "transaction:" store.

(** *** POST /transactions *)

(** The handlers write to the store last, so a handler that throws leaves
    the store as it found it. *)

Definition manual_transaction (env : Env) (type amount category description date : jsval)
  : jsobj jsval :=
  [ ("type", type);
    ("amount", JNum (parseFloat amount));
    ("category", category);
    ("description", js_or description (JStr ""));
    ("date", js_or date (JStr (before_T (toISOString_date env))));
    ("createdAt", JStr (toISOString_createdAt env));
    ("source", JStr "manual") ].

Definition post_transactions_try (env : Env) (req : option jsval)
    (store : gmap string jsval) : completion (response * gmap string jsval) :=
  body ← await_json req;
  type ← get_prop body "type";
  amount ← get_prop body "amount";
  category ← get_prop body "category";
  description ← get_prop body "description";
  date ← get_prop body "date";
  if negb (truthy type) || negb (truthy amount) || negb (truthy category) then
    Ok ({| status := 400; body := error_envelope "Missing required fields" |}, store)
  else
    let transactionId := new_transactionId env in
    let transaction := manual_transaction env type amount category description date in
    let store' := kv_set ("transaction:" +:+ transactionId) (JObj transaction) store in
    Ok ({| status := 200;
           body := JObj [("success", JBool true);
                         ("transaction",
                          JObj (spread_into [("id", JStr transactionId)] (JObj transaction)))] |},
        store').

Definition post_transactions (env : Env) (req : option jsval)
    (store : gmap string jsval) : response * gmap string jsval :=
  match post_transactions_try env req store with
  | Ok r => r
  | Throw _ => ({| status := 500; body := error_envelope "Failed to add transaction" |}, store)
  end.

(** *** POST /process-receipt *)

Definition gemini_url (geminiApiKey : string) : string :=
  "https://generativelanguage.googleapis.com/v1beta/models/gemini-1.5-flash:generateContent?key="
    +:+ geminiApiKey.

(** [result.candidates?.[0]?.content?.parts?.[0]?.text] *)
Definition generated_text (result : jsval) : completion jsval :=
  candidates ← get_prop result "candidates";
  Ok (get_prop_opt
        (get_prop_opt
           (get_prop_opt (get_prop_opt (get_prop_opt candidates "0") "content") "parts")
           "0")
        "text").

(** The inner [try]: [JSON.parse(generatedText.trim())]; whatever is
    thrown inside it, including the TypeError of [trim] on a value that
    is not a string, is replaced by the error of the [catch] clause. *)
Definition parse_receipt (generatedText : jsval) : completion jsval :=
  match generatedText with
  | JStr s =>
      match JSON_parse (trim s) with
      | Some receiptData => Ok receiptData
      | None => Throw "Invalid response format from Gemini API"
      end
  | _ => Throw "Invalid response format from Gemini API"
  end.

(** [parseFloat(total) || 0] *)
Definition parse_or_zero (total : jsval) : number :=
  if num_truthy (parseFloat total) then parseFloat total else num_zero.

Definition receipt_transaction (env : Env) (total category description vendor : jsval)
  : jsobj jsval :=
  [ ("type", JStr "expense");
    ("amount", JNum (parse_or_zero total));
    ("category", js_or category (JStr "other"));
    ("description", js_or (js_or description vendor) (JStr "Receipt expense"));
    ("date", JStr (before_T (toISOString_date env)));
    ("createdAt", JStr (toISOString_createdAt env));
    ("source", JStr "receipt");
    ("vendor", js_or vendor (JStr "")) ].

Definition process_receipt_try (env : Env) (req : option jsval)
    (store : gmap string jsval) : completion (response * gmap string jsval) :=
  body ← await_json req;
  imageBase64 ← get_prop body "imageBase64";
  if negb (truthy imageBase64) then
    Ok ({| status := 400; body := error_envelope "No image provided" |}, store)
  else
    match GEMINI_API_KEY env with
    | None | Some EmptyString =>
        Ok ({| status := 500; body := error_envelope "Gemini API key not configured" |}, store)
    | Some geminiApiKey =>
        match fetch env (gemini_url geminiApiKey) imageBase64 with
        | NetworkFailure => Throw host_message
        | FetchResponse ok status json =>
            if negb ok then Throw ("Gemini API error: " +:+ pretty status)
            else
              result ← await_json json;
              generatedText ← generated_text result;
              if negb (truthy generatedText) then Throw "No response from Gemini API"
              else
                receiptData ← parse_receipt generatedText;
                let transactionId := new_transactionId env in
                total ← get_prop receiptData "total";
                category ← get_prop receiptData "category";
                description ← get_prop receiptData "description";
                vendor ← get_prop receiptData "vendor";
                let transaction := receipt_transaction env total category description vendor in
                let store' := kv_set ("transaction:" +:+ transactionId) (JObj transaction) store in
                Ok ({| status := 200;
                       body := JObj [("success", JBool true);
                                     ("receiptData", receiptData);
                                     ("transaction",
                                      JObj (spread_into [("id", JStr transactionId)]
                                              (JObj transaction)))] |},
                    store')
        end
    end.

Definition process_receipt (env : Env) (req : option jsval)
    (store : gmap string jsval) : response * gmap string jsval :=
  match process_receipt_try env req store with
  | Ok r => r
  | Throw message =>
      ({| status := 500; body := error_envelope ("Failed to process receipt: " +:+ message) |},
       store)
  end.

(** The run of the handler up to the text of the classifier: an image is
    given, the key is configured, the transport call succeeds and the text
    read from its answer is [generatedText]. *)
Definition classifier_returns (env : Env) (body generatedText : jsval) : Prop :=
  ∃ imageBase64 geminiApiKey status result,
    get_prop body "imageBase64" = Ok imageBase64
    ∧ truthy imageBase64 = true
    ∧ GEMINI_API_KEY env = Some geminiApiKey
    ∧ geminiApiKey ≠ ""
    ∧ fetch env (gemini_url geminiApiKey) imageBase64
      = FetchResponse true status (Some result)
    ∧ generated_text result = Ok generatedText.

(** *** DELETE /transactions/:id *)

Definition delete_transaction (transactionId : string) (store : gmap string jsval)
  : response * gmap string jsval :=
  ({| status := 200; body := JObj [("success", JBool true)] |},
   kv_del ("transaction:" +:+ transactionId) store).
End Handlers.

(** ** The client state and its local operations *)

Section JsObjectSpread.
Context {V : Type}.

(** [{...target, ...src}]: the own properties of [src], in their order of
    enumeration, written over [target]. *)
Definition obj_assign (target src : jsobj V) : jsobj V :=
  foldl (λ o e, obj_set o e.1 e.2) target (own_entries src).
End JsObjectSpread.

Section Client.
Context `{Num : JsNumber}.
Variable localeCompare : string → string → comparison.

(** The state of [App] that the local operations write: the two React
    states, the list last handed to [saveTransactionsToLocal] ([None]:
    nothing saved yet), and the sample-data flag. *)
Record AppState := {
  transactions : list Transaction;
  analytics : Analytics;
  saved_transactions : option (list Transaction);
  showingLocalMode : bool;
}.

(** [addTransactionLocal]: the new transaction is the given fields under a
    new id, with [createdAt] set to now. *)
Definition addTransactionLocal (env : Env) (transaction : TransactionData) (st : AppState)
  : Transaction * AppState :=
  let newTransaction :=
    {| id := new_transactionId env;
       data := {| type := type transaction;
                  amount := amount transaction;
                  category := category transaction;
                  description := description transaction;
                  date := date transaction;
                  createdAt := toISOString_createdAt env;
                  source := source transaction;
                  vendor := vendor transaction |} |} in
  let updatedTransactions := transactions st ++ [newTransaction] in
  (newTransaction,
   {| transactions := updatedTransactions;
      analytics := calculateAnalytics localeCompare updatedTransactions;
      saved_transactions := Some updatedTransactions;
      showingLocalMode := false |}).

(** [deleteTransactionLocal] *)
Definition deleteTransactionLocal (transactionId : string) (st : AppState) : AppState :=
  let updatedTransactions := filter (λ t : Transaction, id t ≠ transactionId) (transactions st) in
  {| transactions := updatedTransactions;
     analytics := calculateAnalytics localeCompare updatedTransactions;
     saved_transactions := Some updatedTransactions;
     showingLocalMode := showingLocalMode st |}.
End Client.

(** The sum of the amounts of the expenses of category [c]; [0] when there
    is none. *)
Definition category_sum `{Num : JsNumber} (c : string) (l : list TransactionData) : number :=
  sum_amounts (filter (λ t, type t = Expense ∧ category t = c) l).

(** ** The transaction form *)

(** [formData] is an object of string fields. [handleInputChange] runs two
    state updates in a row: [{...prev, [field]: value}], then, when the
    field is the type, [{...prev, category: ''}]. *)
Definition handleInputChange (field value : string) (formData : jsobj string) : jsobj string :=
  let formData := obj_set (obj_assign [] formData) field value in
  if decide (field = "type") then obj_set (obj_assign [] formData) "category" ""
  else formData.

(** The initial [formData], given today's date. *)
Definition initial_formData (today : string) : jsobj string :=
  [("type", "expense"); ("amount", ""); ("category", ""); ("description", "");
   ("date", today)].

(** The body of the request of [handleSubmit] in server mode, as the
    server reads it back: [JSON.stringify(formData)] keeps the fields, each
    a string. *)
Definition form_body `{Num : JsNumber} (formData : jsobj string) : jsval :=
  JObj ((λ e : string * string, (e.1, JStr e.2)) <$> own_entries formData).

(** ** The transaction history *)

(** [s.includes(search)] *)
Fixpoint includes (s search : string) : bool :=
  if String.prefix search s then true
  else match s with
       | EmptyString => false
       | String _ s' => includes s' search
       end.

(** [Array.from(new Set(l))]: the distinct elements, each at its first
    occurrence. *)
Definition Set_values {A : Type} `{EqDecision A} (l : list A) : list A :=
  foldl (λ seen x, if decide (x ∈ seen) then seen else seen ++ [x]) [] l.

(** [filterType]: ['all' | 'income' | 'expense'] *)
Inductive TypeFilter := AllTypes | OnlyType (ty : TransactionType).

Section History.
Context `{Num : JsNumber}.

(** [String.prototype.toLowerCase] and [new Date(s).getTime()] of the
    host, and the sign the sort reads off a comparator result ([Eq] for
    zero and for NaN). *)
Variable toLowerCase : string → string.
Variable getTime : string → number.
Variable num_sign : number → comparison.

(** [categories] *)
Definition history_categories (transactions : list Transaction) : list string :=
  Set_values ((λ t : Transaction, category t) <$> transactions).

(** [(transaction.vendor?.toLowerCase() || '')] *)
Definition vendor_lower (t : Transaction) : string :=
  match vendor t with
  | Some v => if bool_decide (toLowerCase v = "") then "" else toLowerCase v
  | None => ""
  end.

(** The predicate of [filteredTransactions]. *)
Definition matches_filters (searchTerm : string) (filterType : TypeFilter)
    (filterCategory : string) (transaction : Transaction) : bool :=
  let matchesSearch :=
    includes (toLowerCase (description transaction)) (toLowerCase searchTerm)
    || includes (toLowerCase (category transaction)) (toLowerCase searchTerm)
    || includes (vendor_lower transaction) (toLowerCase searchTerm) in
  let matchesType :=
    match filterType with
    | AllTypes => true
    | OnlyType ty => bool_decide (type transaction = ty)
    end in
  let matchesCategory :=
    bool_decide (filterCategory = "all")
    || bool_decide (category transaction = filterCategory) in
  matchesSearch && matchesType && matchesCategory.

Definition filteredTransactions (searchTerm : string) (filterType : TypeFilter)
    (filterCategory : string) (transactions : list Transaction) : list Transaction :=
  filter (λ t, matches_filters searchTerm filterType filterCategory t = true) transactions.

(** [(a, b) => new Date(b.createdAt).getTime() - new Date(a.createdAt).getTime()] *)
Definition newest_first (a b : Transaction) : comparison :=
  num_sign (num_sub (getTime (createdAt b)) (getTime (createdAt a))).

(** [sortedTransactions] *)
Definition sortedTransactions (searchTerm : string) (filterType : TypeFilter)
    (filterCategory : string) (transactions : list Transaction) : list Transaction :=
  js_sort newest_first (filteredTransactions searchTerm filterType filterCategory transactions).
End History.

(** ** The income and expense chart *)

Section Chart.
Context `{Num : JsNumber}.

(** [new Date(s).toLocaleDateString('en-US', {month: 'short', year:
    '2-digit'})] of the host. *)
Variable toLocaleDateString : string → string.

(** An element of [chartData]: the record with its month relabelled, and
    the net. *)
Record ChartItem := { chart_record :> MonthRecord; net : number }.

(** [chartData] of [IncomeExpenseChart] *)
Definition chartData (data : list MonthRecord) : list ChartItem :=
  (λ item,
     {| chart_record := {| month := toLocaleDateString (month item +:+ "-01");
                           income := income item;
                           expense := expense item |};
        net := num_sub (income item) (expense item) |}) <$> data.
End Chart.

(** Exact arithmetic with subtraction: [a - b] is what added to [b] gives
    [a]. *)
Class ExactSub (N : JsNumber) : Prop := {
  exact_sub_arith :: ExactArith N;
  num_sub_add : ∀ a b : number, num_add (num_sub a b) b = a;
}.

(** ** Sample hosts

    Concrete carriers on which the definitions can be evaluated. *)

(** Numbers that are integers or NaN ([None]). *)
Definition ZNaNNumber : JsNumber :=
  {| number := option Z;
     num_zero := Some 0%Z;
     num_add := λ a b, match a, b with Some x, Some y => Some (x + y)%Z | _, _ => None end;
     num_sub := λ a b, match a, b with Some x, Some y => Some (x - y)%Z | _, _ => None end;
     num_truthy := λ a, match a with Some x => negb (Z.eqb x 0) | None => false end;
     num_to_string := λ a, match a with Some x => pretty x | None => "NaN" end;
     member_to_string := sample_member_to_string;
     num_sub_zero_zero := eq_refl; num_truthy_zero := eq_refl |}.

(** A [parseFloat] for that carrier, on numbers and on strings: the value
    of the longest prefix of decimal digits, NaN when there is none. *)
Fixpoint leading_digits (s : string) : string :=
  match s with
  | EmptyString => EmptyString
  | String c s' =>
      match digit_val c with
      | Some _ => String c (leading_digits s')
      | None => EmptyString
      end
  end.

Definition sample_parseFloat (v : @jsval ZNaNNumber) : @number ZNaNNumber :=
  match v with
  | JNum x => x
  | JStr s =>
      match leading_digits (trim_start s) with
      | EmptyString => None
      | ds => Z.of_N <$> digits_val 0 ds
      end
  | _ => None
  end.

(** The scenario of the specification: one income and two food expenses
    over two months, with integer amounts. *)
Definition sample_data (ty : TransactionType) (a : Z) (c d : string)
  : @TransactionData ZNumber :=
  {| type := ty; amount := a : @number ZNumber; category := c; description := "";
     date := d; createdAt := d +:+ "T09:00:00.000Z"; source := "manual"; vendor := None |}.

Definition sample_transactions : list (@Transaction ZNumber) :=
  [ {| id := "1704445200000_k3j9x0q1z"; data := sample_data Income 1000 "salary" "2024-01-05" |};
    {| id := "1704877200000_a8s7d6f5g"; data := sample_data Expense 200 "food" "2024-01-10" |};
    {| id := "1706778000000_q1w2e3r4t"; data := sample_data Expense 50 "food" "2024-02-01" |} ].

(** Transactions whose months come in no order, one of them twice. *)
Definition unordered_transactions : list (@Transaction ZNumber) :=
  [ {| id := "1709888400000_m3n4b5v6c"; data := sample_data Expense 40 "food" "2024-03-08" |};
    {| id := "1700557200000_p0o9i8u7y"; data := sample_data Income 900 "salary" "2023-11-21" |};
    {| id := "1705395600000_l1k2j3h4g"; data := sample_data Expense 15 "transport" "2024-01-16" |};
    {| id := "1701248400000_z1x2c3v4b"; data := sample_data Expense 60 "food" "2023-11-29" |} ].

(** Two transactions dated in words. *)
Definition worded_transactions : list (@Transaction ZNumber) :=
  [ {| id := "1709888400000_w1e2r3t4y"; data := sample_data Expense 30 "food" "March 2024" |};
    {| id := "1712566800000_u5i6o7p8a"; data := sample_data Income 10 "gift" "april 2024" |} ].

(** Two expenses, the first under the category [__proto__]. *)
Definition proto_transactions : list (@Transaction ZNumber) :=
  [ {| id := "1704445200000_s9d8f7g6h"; data := sample_data Expense 5 "__proto__" "2024-01-05" |};
    {| id := "1704531600000_j5k4l3z2x"; data := sample_data Expense 2 "food" "2024-01-06" |} ].

(** Two expenses, the first under the category [constructor]. *)
Definition constructor_transactions : list (@Transaction ZNumber) :=
  [ {| id := "1704445200000_e1r2t3y4u"; data := sample_data Expense 5 "constructor" "2024-01-05" |};
    {| id := "1704531600000_i5o6p7a8s"; data := sample_data Expense 2 "food" "2024-01-06" |} ].

(** Two expenses, the first dated with a text that begins with
    [valueOf]. *)
Definition valueOf_transactions : list (@Transaction ZNumber) :=
  [ {| id := "1704445200000_c4v5b6n7m"; data := sample_data Expense 5 "food" "valueOf-01" |};
    {| id := "1704531600000_q2w3e4r5t"; data := sample_data Expense 2 "food" "2024-01-06" |} ].

(** A collation in the manner of the hosts' default one on letters, digits,
    the space and the hyphen: strings are compared without regard to case
    first, and between strings that differ in case only, the one with the
    lower-case letter at the first difference goes first. *)
Definition to_lower (c : ascii) : ascii :=
  let n := N_of_ascii c in
  if (65 <=? n)%N && (n <=? 90)%N then ascii_of_N (n + 32) else c.

Fixpoint lower_case (s : string) : string :=
  match s with
  | EmptyString => EmptyString
  | String c s' => String (to_lower c) (lower_case s')
  end.

Definition sample_localeCompare (a b : string) : comparison :=
  match String.compare (lower_case a) (lower_case b) with
  | Eq => String.compare b a
  | c => c
  end.

(** A [JSON.parse] that knows two texts. *)
Definition sample_JSON_parse (s : string) : option (@jsval ZNaNNumber) :=
  if decide (s = "{}") then Some (JObj [])
  else if decide (s = "null") then Some JNull
  else None.

(** A classifier that answers every request with the given text. *)
Definition sample_fetch (text : string) (url : string) (image : @jsval ZNaNNumber)
  : @fetch_outcome ZNaNNumber :=
  FetchResponse true 200
    (Some (JObj [("candidates",
                  JArr [JObj [("content",
                               JObj [("parts", JArr [JObj [("text", JStr text)]])])]])])).

Definition sample_env (text : string) : @Env ZNaNNumber :=
  {| Date_now := "1704445200000";
     Math_random_36 := "0.k3j9x0q1zab";
     toISOString_date := "2024-01-05T09:00:00.000Z";
     toISOString_createdAt := "2024-01-05T09:00:00.001Z";
     GEMINI_API_KEY := Some "secret";
     fetch := sample_fetch text |}.

(** Create requests: a grocery expense of 12, and one whose amount is 0. *)
Definition sample_request : jsobj (@jsval ZNaNNumber) :=
  [("type", JStr "expense"); ("amount", JStr "12"); ("category", JStr "food")].


(** A create request without a category. *)
Definition incomplete_request : jsobj (@jsval ZNaNNumber) :=
  [("type", JStr "expense"); ("amount", JStr "12")].

(** A receipt request. *)
Definition sample_receipt_request : @jsval ZNaNNumber :=
  JObj [("imageBase64", JStr "aGVsbG8=")].

(** A store that holds the grocery expense, and that transaction as the
    form submits it. *)
Definition sample_store : gmap string (@jsval ZNaNNumber) :=
  kv_set "transaction:1700000000000_abcdefghi"
    (JObj [("type", JStr "expense"); ("amount", JNum (sample_parseFloat (JStr "12")));
           ("category", JStr "food"); ("source", JStr "manual")])
    ∅.

Definition sample_formData : jsobj string :=
  [("type", "expense"); ("amount", "12"); ("category", "food"); ("description", "");
   ("date", "2024-01-05")].

(** The surroundings of the client, and a state of [App] that holds the
    transactions of the scenario. *)
Definition sample_client_env : @Env ZNumber :=
  {| Date_now := "1706860800000";
     Math_random_36 := "0.z9y8x7w6v5u";
     toISOString_date := "2024-02-02T08:00:00.000Z";
     toISOString_createdAt := "2024-02-02T08:00:00.000Z";
     GEMINI_API_KEY := None;
     fetch := λ _ _, NetworkFailure |}.

Definition sample_state : @AppState ZNumber :=
  {| transactions := sample_transactions;
     analytics := calculateAnalytics String.compare sample_transactions;
     saved_transactions := None;
     showingLocalMode := true |}.

(** Surroundings in which the classifier answers 503. *)
Definition sample_env_unavailable : @Env ZNaNNumber :=
  {| Date_now := "1704445200000";
     Math_random_36 := "0.k3j9x0q1zab";
     toISOString_date := "2024-01-05T09:00:00.000Z";
     toISOString_createdAt := "2024-01-05T09:00:00.001Z";
     GEMINI_API_KEY := Some "secret";
     fetch := λ _ _, FetchResponse false 503 None |}.

(** * Properties *)

Lemma ZNumber_exact : ExactArith ZNumber.
Proof.
  split; simpl; intros.
  - apply Z.add_assoc.
  - apply Z.add_comm.
  - reflexivity.
  - apply negb_false_iff, Z.eqb_eq in H. exact H.
Qed.

(** ** The definitions at work *)

(** The scenario of the specification. *)
Example calculateAnalytics_scenario :
  calculateAnalytics String.compare sample_transactions
  = @Build_Analytics ZNumber 1000%Z 250%Z 750%Z [("food", @Amount ZNumber 250%Z)]
      [ @Build_MonthRecord ZNumber "2024-01" 1000%Z 200%Z;
        @Build_MonthRecord ZNumber "2024-02" 0%Z 50%Z ].
Proof. reflexivity. Qed.

Example analytics_handler_scenario :
  analytics_handler String.compare (to_item <$> sample_transactions)
  = calculateAnalytics String.compare sample_transactions.
Proof. reflexivity. Qed.

Example array_index_examples :
  array_index "0" = Some 0%N ∧ array_index "42" = Some 42%N
  ∧ array_index "007" = None ∧ array_index "2024-01" = None
  ∧ array_index "4294967294" = Some 4294967294%N ∧ array_index "4294967295" = None.
Proof. repeat split. Qed.

(** Array indices are enumerated first, in numeric order. *)
Example Object_values_order :
  Object_values [("b", 1); ("10", 2); ("a", 3); ("9", 4)] = [4; 2; 1; 3].
Proof. reflexivity. Qed.

Example js_sort_stable :
  js_sort (λ a b : nat * string, Nat.compare a.1 b.1) [(2, "x"); (1, "y"); (2, "z"); (1, "w")]
  = [(1, "y"); (1, "w"); (2, "x"); (2, "z")].
Proof. reflexivity. Qed.

Example trim_example : trim "  {} " = "{}".
Proof. reflexivity. Qed.

Example replace_first_example :
  replace_first "transaction:" "" "transaction:17_ab:transaction:" = "17_ab:transaction:".
Proof. reflexivity. Qed.

Example new_transactionId_example :
  new_transactionId (sample_env "") = "1704445200000_k3j9x0q1z".
Proof. reflexivity. Qed.

(** ** The sort *)

Section SortingFacts.
Context {A : Type}.
Implicit Types (cmp : A → A → comparison) (l : list A).

Lemma insert_sorted_Permutation cmp x l : insert_sorted cmp x l ≡ₚ x :: l.
Proof.
  induction l as [|y l IH]; simpl; [done|].
  destruct (cmp x y); try done.
  rewrite IH. apply Permutation_swap.
Qed.

Lemma js_sort_Permutation cmp l : js_sort cmp l ≡ₚ l.
Proof.
  induction l as [|x l IH]; simpl; [done|].
  rewrite insert_sorted_Permutation. by f_equiv.
Qed.

Lemma elem_of_js_sort cmp l x : x ∈ js_sort cmp l ↔ x ∈ l.
Proof. by rewrite js_sort_Permutation. Qed.

Lemma insert_sorted_ext cmp cmp' x l :
  (∀ y, y ∈ l → cmp x y = cmp' x y) →
  insert_sorted cmp x l = insert_sorted cmp' x l.
Proof.
  induction l as [|y l IH]; intros Hagree; simpl; [done|].
  rewrite <- (Hagree y) by left.
  rewrite IH; [done|]. intros z Hz. apply Hagree. by right.
Qed.

(** The sort only consults the comparator on elements of the list. *)
Lemma js_sort_ext cmp cmp' l :
  (∀ x y, x ∈ l → y ∈ l → cmp x y = cmp' x y) →
  js_sort cmp l = js_sort cmp' l.
Proof.
  induction l as [|x l IH]; intros Hagree; simpl; [done|].
  fold (js_sort cmp l) (js_sort cmp' l).
  rewrite IH.
  - apply insert_sorted_ext. intros y Hy. apply elem_of_js_sort in Hy.
    apply Hagree; [left | by right].
  - intros y z Hy Hz. apply Hagree; by right.
Qed.

Lemma insert_sorted_fmap {B} (f : A → B) (cmp' : B → B → comparison) cmp x l :
  (∀ a b, cmp' (f a) (f b) = cmp a b) →
  insert_sorted cmp' (f x) (f <$> l) = f <$> insert_sorted cmp x l.
Proof.
  intros Hcmp. induction l as [|y l IH]; [done|].
  cbn [insert_sorted fmap list_fmap]. rewrite Hcmp.
  destruct (cmp x y); [done | done |]. cbn [fmap list_fmap] in *. by rewrite IH.
Qed.

Lemma js_sort_fmap {B} (f : A → B) (cmp' : B → B → comparison) cmp l :
  (∀ a b, cmp' (f a) (f b) = cmp a b) →
  js_sort cmp' (f <$> l) = f <$> js_sort cmp l.
Proof.
  intros Hcmp. unfold js_sort. induction l as [|x l IH]; [done|].
  cbn [fmap list_fmap foldr] in *. rewrite IH. by apply insert_sorted_fmap.
Qed.

Section Sorted.
Variable cmp : A → A → comparison.
Variable R : relation A.

Lemma insert_sorted_HdRel x y l :
  R y x → HdRel R y l → HdRel R y (insert_sorted cmp x l).
Proof.
  intros Hyx Hhd. destruct l as [|z l]; simpl; [by constructor|].
  destruct (cmp x z); constructor; try done; by inversion Hhd.
Qed.

Lemma insert_sorted_Sorted x l :
  (∀ y, y ∈ l → cmp x y ≠ Gt → R x y) →
  (∀ y, y ∈ l → cmp x y = Gt → R y x) →
  Sorted R l → Sorted R (insert_sorted cmp x l).
Proof.
  intros Hle Hgt Hsorted.
  induction Hsorted as [|y l Hl IH Hhd]; simpl; [by repeat constructor|].
  assert (y ∈ y :: l) as Hy by left.
  destruct (cmp x y) eqn:Hxy.
  - constructor; [by constructor|]. constructor. apply Hle; [done|]. by rewrite Hxy.
  - constructor; [by constructor|]. constructor. apply Hle; [done|]. by rewrite Hxy.
  - constructor.
    + apply IH; intros z Hz; [apply Hle | apply Hgt]; by right.
    + apply insert_sorted_HdRel; [|done]. by apply Hgt.
Qed.

(** The result is sorted for any relation that the comparator decides on
    the elements of the list. *)
Lemma js_sort_Sorted l :
  (∀ x y, x ∈ l → y ∈ l → cmp x y ≠ Gt → R x y) →
  (∀ x y, x ∈ l → y ∈ l → cmp x y = Gt → R y x) →
  Sorted R (js_sort cmp l).
Proof.
  induction l as [|x l IH]; intros Hle Hgt; simpl; [constructor|].
  apply insert_sorted_Sorted.
  - intros y Hy%elem_of_js_sort. apply Hle; [left | by right].
  - intros y Hy%elem_of_js_sort. apply Hgt; [left | by right].
  - apply IH; intros y z Hy Hz; [apply Hle | apply Hgt]; by right.
Qed.
End Sorted.
End SortingFacts.

(** ** Objects *)

Section ObjectFacts.
Context {V : Type}.
Implicit Types (o : jsobj V) (k : string) (v : V).

Lemma obj_get_set o k v k' :
  obj_get (obj_set o k v) k' = if decide (k = k') then Some v else obj_get o k'.
Proof.
  induction o as [|[k0 v0] o IH]; simpl.
  - done.
  - destruct (decide (k0 = k)) as [->|Hne]; simpl.
    + by destruct (decide (k = k')).
    + rewrite IH. destruct (decide (k0 = k')) as [->|?]; [|done].
      by rewrite decide_False.
Qed.

Lemma obj_get_None o k : obj_get o k = None ↔ k ∉ obj_keys o.
Proof.
  unfold obj_keys. induction o as [|[k0 v0] o IH]; simpl.
  - split; [intros _; apply not_elem_of_nil | done].
  - rewrite not_elem_of_cons. destruct (decide (k0 = k)) as [->|?].
    + split; [done | by intros [? _]].
    + rewrite IH. split; [by intros | by intros [_ ?]].
Qed.

Lemma obj_get_Some_elem_of o k v : obj_get o k = Some v → (k, v) ∈ o.
Proof.
  induction o as [|[k0 v0] o IH]; simpl; [done|].
  destruct (decide (k0 = k)) as [->|?].
  - intros [= ->]. left.
  - intros. right. by apply IH.
Qed.

Lemma elem_of_obj_get o k v : NoDup (obj_keys o) → (k, v) ∈ o → obj_get o k = Some v.
Proof.
  unfold obj_keys. induction o as [|[k0 v0] o IH]; simpl.
  - intros _ Hin. by apply elem_of_nil in Hin.
  - intros [Hk0 Hnd]%NoDup_cons [Heq|Hin]%elem_of_cons.
    + injection Heq as -> ->. by rewrite decide_True.
    + rewrite decide_False; [by apply IH|].
      intros ->. apply Hk0. apply list_elem_of_fmap. by exists (k, v).
Qed.

Lemma obj_keys_set o k v :
  obj_keys (obj_set o k v) = if decide (k ∈ obj_keys o) then obj_keys o else obj_keys o ++ [k].
Proof.
  unfold obj_keys. induction o as [|[k0 v0] o IH].
  - destruct (decide (k ∈ fst <$> [])) as [Hin|_]; [by apply elem_of_nil in Hin | done].
  - cbn [obj_set]. rewrite !fmap_cons. cbn [fst].
    destruct (decide (k0 = k)) as [->|Hne].
    + rewrite decide_True; [done | left].
    + rewrite fmap_cons, IH. cbn [fst]. destruct (decide (k ∈ fst <$> o)).
      * rewrite decide_True; [done | by right].
      * rewrite decide_False; [done|]. rewrite not_elem_of_cons. by split.
Qed.

Lemma obj_set_NoDup o k v : NoDup (obj_keys o) → NoDup (obj_keys (obj_set o k v)).
Proof.
  intros Hnd. rewrite obj_keys_set. case_decide; [done|].
  apply NoDup_app. split_and!; [done | | apply NoDup_singleton].
  intros x Hx ->%list_elem_of_singleton. done.
Qed.

Lemma own_entries_Permutation o : own_entries o ≡ₚ o.
Proof.
  unfold own_entries. rewrite js_sort_Permutation.
  apply (filter_app_complement (λ e : string * V, is_Some (array_index e.1))).
Qed.

Lemma Object_values_Permutation o : Object_values o ≡ₚ snd <$> o.
Proof. unfold Object_values. by rewrite own_entries_Permutation. Qed.
End ObjectFacts.

(** ** The aggregates *)

Lemma filter_fmap_comm {A B} (f : A → B) (P : B → Prop) `{!∀ x, Decision (P x)}
    (l : list A) :
  filter P (f <$> l) = f <$> filter (λ x, P (f x)) l.
Proof.
  induction l as [|x l IH]; [done|].
  rewrite fmap_cons, !filter_cons. case_decide; [rewrite fmap_cons|]; by rewrite IH.
Qed.

Lemma own_entries_fmap {V W} (g : V → W) (o : jsobj V) :
  own_entries ((λ e, (e.1, g e.2)) <$> o) = (λ e, (e.1, g e.2)) <$> own_entries o.
Proof.
  unfold own_entries. rewrite fmap_app. f_equal.
  - rewrite (filter_fmap_comm (λ e : string * V, (e.1, g e.2))).
    apply js_sort_fmap. intros a b. reflexivity.
  - apply (filter_fmap_comm (λ e : string * V, (e.1, g e.2))).
Qed.

(** The keys are enumerated in an order that their order of creation
    determines. *)
Lemma Object_keys_enumeration {V} (o : jsobj V) :
  Object_keys o = enumeration_order (obj_keys o).
Proof.
  unfold enumeration_order, Object_keys, obj_keys.
  rewrite <- list_fmap_compose.
  change (own_entries ((λ k, (k, ())) ∘ fst <$> o))
    with (own_entries ((λ e : string * V, (e.1, (λ _, ()) e.2)) <$> o)).
  rewrite own_entries_fmap, <- list_fmap_compose. reflexivity.
Qed.

Section AnalyticsFacts.
Context `{Num : JsNumber}.
Variable localeCompare : string → string → comparison.

Lemma calculateAnalytics_aggregate (ts : list Transaction) :
  calculateAnalytics localeCompare ts = aggregate localeCompare (data <$> ts).
Proof.
  unfold calculateAnalytics, aggregate, sum_amounts.
  rewrite !(filter_fmap_comm data), !foldl_fmap. reflexivity.
Qed.

Lemma analytics_handler_aggregate (items : list KvItem) :
  analytics_handler localeCompare items = aggregate localeCompare (value <$> items).
Proof. reflexivity. Qed.

Lemma to_item_value (ts : list Transaction) : value <$> (to_item <$> ts) = data <$> ts.
Proof. rewrite <- list_fmap_compose. reflexivity. Qed.

Lemma analytics_handler_to_item (ts : list Transaction) :
  analytics_handler localeCompare (to_item <$> ts) = calculateAnalytics localeCompare ts.
Proof.
  by rewrite analytics_handler_aggregate, calculateAnalytics_aggregate, to_item_value.
Qed.
End AnalyticsFacts.

(** *** The category breakdown under exact arithmetic *)

Section ExactFacts.
Context `{Num : JsNumber} `{!ExactArith Num}.
Implicit Types (a b z : number) (l : list number) (o : jsobj number).

Lemma num_add_zero_r a : num_add a num_zero = a.
Proof. by rewrite num_add_comm, num_add_zero_l. Qed.

Lemma foldl_num_add_shift z l :
  foldl num_add z l = num_add z (foldl num_add num_zero l).
Proof.
  revert z. induction l as [|x l IH]; intros z; simpl.
  - by rewrite num_add_zero_r.
  - rewrite IH, (IH (num_add num_zero x)), num_add_zero_l. symmetry. apply num_add_assoc.
Qed.

Lemma foldl_num_add_cons x l :
  foldl num_add num_zero (x :: l) = num_add x (foldl num_add num_zero l).
Proof. simpl. by rewrite foldl_num_add_shift, num_add_zero_l. Qed.

Lemma foldl_num_add_Permutation z l l' :
  l ≡ₚ l' → foldl num_add z l = foldl num_add z l'.
Proof.
  intros Hperm. revert z.
  induction Hperm as [|x l l' _ IH|x y l|l l' l'' _ IH1 _ IH2]; intros z; simpl.
  - done.
  - apply IH.
  - f_equal. rewrite <- !num_add_assoc. f_equal. apply num_add_comm.
  - by rewrite IH1.
Qed.

(** A dictionary of numbers, as a dictionary of values. *)
Lemma obj_get_amounts o k :
  obj_get ((λ e, (e.1, Amount e.2)) <$> o) k = Amount <$> obj_get o k.
Proof.
  induction o as [|[k' v] o IH]; [done|].
  cbn [fmap list_fmap obj_get fst snd option_fmap option_map].
  case_decide; [done | apply IH].
Qed.

Lemma obj_set_amounts o k a :
  obj_set ((λ e, (e.1, Amount e.2)) <$> o) k (Amount a)
  = (λ e, (e.1, Amount e.2)) <$> obj_set o k a.
Proof.
  induction o as [|[k' v] o IH]; [done|].
  cbn [fmap list_fmap obj_set fst snd]. case_decide; [done|].
  cbn [fmap list_fmap fst snd] in *. by rewrite IH.
Qed.

(** On a dictionary of numbers, under a key that is no inherited name,
    the step of the category reduction adds the amount to the entry, or
    to 0 when there is none. *)
Lemma add_to_category_amounts o (t : TransactionData) :
  category t ∉ Object_prototype_names →
  add_to_category ((λ e, (e.1, Amount e.2)) <$> o) t
  = (λ e, (e.1, Amount e.2))
      <$> obj_set o (category t)
            (num_add (default num_zero (obj_get o (category t))) (amount t)).
Proof.
  intros Hown. unfold add_to_category, assign, get_or_zero.
  rewrite decide_False by (intros Heq; apply Hown; rewrite Heq; set_solver).
  rewrite obj_get_amounts, <- obj_set_amounts. f_equal.
  destruct (obj_get o (category t)) as [v|]; cbn [fmap option_fmap option_map default].
  - cbn [value_truthy]. destruct (num_truthy v) eqn:Hv; [done|].
    by rewrite (num_falsy_zero v Hv).
  - by rewrite decide_False.
Qed.

Lemma foldl_add_to_category_amounts o (l : list TransactionData) :
  Forall (λ t, category t ∉ Object_prototype_names) l →
  foldl add_to_category ((λ e, (e.1, Amount e.2)) <$> o) l
  = (λ e, (e.1, Amount e.2))
      <$> foldl (λ o t, obj_set o (category t)
                          (num_add (default num_zero (obj_get o (category t))) (amount t)))
            o l.
Proof.
  intros Hown. revert o. induction Hown as [|t l Ht _ IH]; intros o; [done|].
  cbn [foldl]. by rewrite add_to_category_amounts, IH.
Qed.

Lemma foldl_value_plus_amounts z l :
  foldl value_plus (Amount z) (Amount <$> l) = Amount (foldl num_add z l).
Proof. revert z. induction l as [|x l IH]; intros z; [done|]. apply IH. Qed.

Lemma sum_values_amounts o :
  sum_values ((λ e, (e.1, Amount e.2)) <$> o)
  = Amount (foldl num_add num_zero (snd <$> o)).
Proof.
  unfold sum_values, Object_values.
  rewrite own_entries_fmap, <- list_fmap_compose.
  change (snd ∘ (λ e : string * number, (e.1, Amount e.2))) with (Amount ∘ snd (A := string)).
  rewrite list_fmap_compose, foldl_value_plus_amounts. f_equal.
  apply foldl_num_add_Permutation. by rewrite own_entries_Permutation.
Qed.

Lemma sum_obj_set o k a :
  foldl num_add num_zero (snd <$> obj_set o k (num_add (default num_zero (obj_get o k)) a))
  = num_add (foldl num_add num_zero (snd <$> o)) a.
Proof.
  induction o as [|[k' v] o IH].
  - cbn. by rewrite !num_add_zero_l.
  - cbn [obj_set obj_get]. destruct (decide (k' = k)) as [->|Hne].
    + rewrite !fmap_cons, !foldl_num_add_cons. cbn [snd default].
      rewrite <- !num_add_assoc. f_equal. apply num_add_comm.
    + rewrite !fmap_cons, !foldl_num_add_cons, IH. cbn [snd]. apply num_add_assoc.
Qed.

(** When no expense has an inherited name for its category, the values of
    the category mapping are numbers and add up to the total expense. *)
Lemma aggregate_sum_values lc (l : list TransactionData) :
  (∀ t, t ∈ l → type t = Expense → category t ∉ Object_prototype_names) →
  sum_values (expensesByCategory (aggregate lc l)) = Amount (totalExpense (aggregate lc l)).
Proof.
  intros Hown. cbn [expensesByCategory totalExpense aggregate]. unfold sum_amounts.
  assert (Forall (λ t, category t ∉ Object_prototype_names)
            (filter (λ t, type t = Expense) l)) as Hall.
  { apply Forall_forall. intros t [Hty Hin]%list_elem_of_filter. by apply Hown. }
  change (@nil (string * CategoryValue))
    with ((λ e : string * number, (e.1, Amount e.2)) <$> []).
  rewrite foldl_add_to_category_amounts, sum_values_amounts by done. f_equal.
  generalize (filter (λ t, type t = Expense) l). clear Hown Hall.
  intros l'. change (foldl (λ sum t, num_add sum (amount t)) num_zero l')
    with (foldl (λ sum (t : TransactionData), num_add sum (amount t))
            (foldl num_add num_zero (snd <$> @nil (string * number))) l').
  generalize (@nil (string * number)). induction l' as [|t l' IH]; intros o; [done|].
  cbn [foldl]. by rewrite IH, sum_obj_set.
Qed.
End ExactFacts.

(** *** The monthly series *)

Section MonthlyFacts.
Context `{Num : JsNumber}.
Variable localeCompare : string → string → comparison.
Implicit Types (l : list TransactionData) (t : TransactionData) (k m : string).

Lemma bucket_sum_snoc ty m l t :
  bucket_sum ty m (l ++ [t])
  = if decide (type t = ty ∧ month_of t = m)
    then num_add (bucket_sum ty m l) (amount t) else bucket_sum ty m l.
Proof.
  unfold bucket_sum, sum_amounts. rewrite filter_app, filter_cons, filter_nil.
  case_decide.
  - by rewrite foldl_snoc.
  - by rewrite app_nil_r.
Qed.

Lemma bucket_sum_absent ty m l : m ∉ month_of <$> l → bucket_sum ty m l = num_zero.
Proof.
  intros Hm. unfold bucket_sum.
  replace (filter (λ t, type t = ty ∧ month_of t = m) l) with (@nil TransactionData);
    [done|].
  symmetry. induction l as [|t l IH]; [done|].
  rewrite fmap_cons, not_elem_of_cons in Hm. destruct Hm as [Hne Hm].
  rewrite filter_cons, decide_False; [by apply IH|]. intros [_ Heq]. by apply Hne.
Qed.

Lemma add_to_field_bucket_record l t :
  add_to_field (bucket_record (month_of t) l) (type t) (amount t)
  = bucket_record (month_of t) (l ++ [t]).
Proof.
  unfold bucket_record. rewrite !bucket_sum_snoc.
  destruct (type t); cbn [add_to_field month income expense];
    repeat case_decide; first [done | by exfalso; intuition congruence].
Qed.

Lemma bucket_record_snoc_ne k l t :
  month_of t ≠ k → bucket_record k (l ++ [t]) = bucket_record k l.
Proof.
  intros Hne. unfold bucket_record. rewrite !bucket_sum_snoc.
  rewrite !decide_False; [done | by intros [_ ?] ..].
Qed.

Lemma substring_length_le (n m : nat) (s : string) :
  (String.length (substring n m s) ≤ m)%nat.
Proof.
  revert n m. induction s as [|c s IH]; intros n m.
  - destruct n, m; cbn; lia.
  - destruct n as [|n]; [destruct m as [|m]|]; cbn [substring String.length].
    + lia.
    + specialize (IH 0%nat m). lia.
    + apply IH.
Qed.

(** A month has at most seven characters, so [valueOf] is the only
    inherited name it can be. *)
Lemma month_of_inherited t : month_of t ∈ Object_prototype_names ↔ month_of t = "valueOf".
Proof.
  split.
  - intros Hin. pose proof (substring_length_le 0 7 (date t)) as Hlen.
    fold (month_of t) in Hlen. unfold Object_prototype_names in Hin.
    repeat (apply elem_of_cons in Hin as [Heq|Hin];
            [first [exact Heq | rewrite Heq in Hlen; cbn in Hlen; lia]|]).
    by apply elem_of_nil in Hin.
  - intros ->. unfold Object_prototype_names. set_solver.
Qed.

Lemma add_to_month_NoDup (acc : jsobj MonthRecord) t :
  NoDup (obj_keys acc) → NoDup (obj_keys (add_to_month acc t)).
Proof.
  intros Hnd. unfold add_to_month. destruct (obj_get acc _); [by apply obj_set_NoDup|].
  case_decide; [done | by apply obj_set_NoDup].
Qed.

(** What the monthly accumulator holds under each key after the
    reduction. *)
Lemma monthly_acc_get l k :
  obj_get (foldl add_to_month [] l) k
  = if decide (k ∈ month_of <$> l ∧ k ∉ Object_prototype_names)
    then Some (bucket_record k l) else None.
Proof.
  revert k. induction l as [|t l IH] using rev_ind; intros k.
  - destruct (decide (k ∈ month_of <$> [] ∧ k ∉ Object_prototype_names)) as [[Hin _]|_];
      [by apply elem_of_nil in Hin | done].
  - rewrite foldl_snoc, fmap_snoc.
    assert (add_to_month (foldl add_to_month [] l) t
            = if decide (month_of t ∈ Object_prototype_names)
              then foldl add_to_month [] l
              else obj_set (foldl add_to_month [] l) (month_of t)
                     (bucket_record (month_of t) (l ++ [t]))) as ->.
    { unfold add_to_month at 1. cbv beta zeta. fold (month_of t). rewrite (IH (month_of t)).
      rewrite <- add_to_field_bucket_record.
      destruct (decide (month_of t ∈ Object_prototype_names)) as [Hm|Hm].
      - by rewrite decide_False by (by intros [_ ?]).
      - destruct (decide (month_of t ∈ month_of <$> l)) as [Hin|Hnin].
        + by rewrite decide_True by done.
        + rewrite decide_False by (by intros [? _]).
          unfold bucket_record. by rewrite !bucket_sum_absent. }
    destruct (decide (month_of t ∈ Object_prototype_names)) as [Hm|Hm].
    + rewrite IH. destruct (decide (month_of t = k)) as [<-|Hne].
      * by rewrite !decide_False by (by intros [_ ?]).
      * rewrite bucket_record_snoc_ne by done.
        destruct (decide (k ∈ month_of <$> l ∧ k ∉ Object_prototype_names)) as [[Hin Hk]|Hnin].
        -- rewrite decide_True; [done|]. split; [|done]. apply elem_of_app. by left.
        -- rewrite decide_False; [done|].
           rewrite elem_of_app, list_elem_of_singleton. intros [[?|?] ?]; [|done].
           by apply Hnin.
    + rewrite obj_get_set. destruct (decide (month_of t = k)) as [<-|Hne].
      * rewrite decide_True; [done|]. split; [|done]. apply elem_of_app; right; left.
      * rewrite IH, bucket_record_snoc_ne by done.
        destruct (decide (k ∈ month_of <$> l ∧ k ∉ Object_prototype_names)) as [[Hin Hk]|Hnin].
        -- rewrite decide_True; [done|]. split; [|done]. apply elem_of_app. by left.
        -- rewrite decide_False; [done|].
           rewrite elem_of_app, list_elem_of_singleton. intros [[?|?] ?]; [|done].
           by apply Hnin.
Qed.

Lemma monthly_acc_NoDup l : NoDup (obj_keys (foldl add_to_month [] l)).
Proof.
  induction l as [|t l IH] using rev_ind.
  - apply NoDup_nil_2.
  - rewrite foldl_snoc. by apply add_to_month_NoDup.
Qed.

Lemma monthly_acc_entry l k r :
  (k, r) ∈ foldl add_to_month [] l
  ↔ (k ∈ month_of <$> l ∧ k ∉ Object_prototype_names) ∧ r = bucket_record k l.
Proof.
  split.
  - intros Hin. apply elem_of_obj_get in Hin; [|apply monthly_acc_NoDup].
    rewrite monthly_acc_get in Hin. case_decide; [|done]. by injection Hin as <-.
  - intros [Hin ->]. apply obj_get_Some_elem_of.
    rewrite monthly_acc_get. by rewrite decide_True.
Qed.

Lemma monthly_acc_months l :
  month <$> (snd <$> foldl add_to_month [] l) = obj_keys (foldl add_to_month [] l).
Proof.
  unfold obj_keys. rewrite <- list_fmap_compose. apply Forall_fmap_ext_1.
  apply Forall_forall. intros [k r] Hin. apply monthly_acc_entry in Hin as [_ ->]. done.
Qed.

Lemma monthlyData_Permutation l :
  monthlyData (aggregate localeCompare l) ≡ₚ snd <$> foldl add_to_month [] l.
Proof. simpl. by rewrite js_sort_Permutation, Object_values_Permutation. Qed.

(** The records of the monthly series: one for each month of the input
    that is no inherited name. *)
Lemma elem_of_monthlyData l r :
  r ∈ monthlyData (aggregate localeCompare l)
  ↔ (month r ∈ month_of <$> l ∧ month r ∉ Object_prototype_names)
    ∧ r = bucket_record (month r) l.
Proof.
  rewrite monthlyData_Permutation, list_elem_of_fmap. split.
  - intros [[k r'] [-> Hin]]. apply monthly_acc_entry in Hin as [Hin ->]. done.
  - intros [Hin Hr]. exists (month r, r). split; [done|].
    apply monthly_acc_entry. done.
Qed.

(** When no date begins with [valueOf], no month is an inherited name. *)
Lemma months_own l m :
  "valueOf" ∉ month_of <$> l → m ∈ month_of <$> l → m ∉ Object_prototype_names.
Proof.
  intros Hnone Hin Hm. apply list_elem_of_fmap in Hin as [t [-> Ht]].
  apply month_of_inherited in Hm. apply Hnone. rewrite <- Hm.
  apply list_elem_of_fmap. by exists t.
Qed.
End MonthlyFacts.

Section AnalyticsClaims.
Context `{Num : JsNumber}.
Variable localeCompare : string → string → comparison.

Lemma by_month_compare_Sorted (l : list MonthRecord) :
  StronglySorted (λ a b, (month a ≤ month b)%string) (js_sort (by_month String.compare) l).
Proof.
  apply Sorted_StronglySorted.
  - intros a b c Hab Hbc. by etrans.
  - apply js_sort_Sorted; intros x y _ _; unfold by_month, String.le, String.leb.
    + intros Hne. destruct (month x ?= month y)%string; simpl; try exact I.
      by destruct Hne.
    + rewrite (String.compare_antisym (month y) (month x)).
      intros ->. exact I.
Qed.

Lemma aggregate_monthly_series (l : list TransactionData) :
  "valueOf" ∉ month_of <$> l →
  monthly_series localeCompare l (monthlyData (aggregate localeCompare l)).
Proof.
  intros Hnone. split_and!.
  - rewrite monthlyData_Permutation, monthly_acc_months. apply monthly_acc_NoDup.
  - intros m. rewrite list_elem_of_fmap. split.
    + intros [r [-> Hr]]. apply elem_of_monthlyData in Hr as [[Hin _] _].
      apply list_elem_of_fmap in Hin as [t [? ?]]. by exists t.
    + intros [t [Ht Hm]]. exists (bucket_record m l). split; [done|].
      assert (m ∈ month_of <$> l) as Hin by (apply list_elem_of_fmap; by exists t).
      apply elem_of_monthlyData. split; [|done].
      split; [done|]. by apply (months_own l).
  - intros r Hr. apply elem_of_monthlyData in Hr as [_ Hr].
    split; by rewrite Hr at 1.
  - intros Hasym. cbn [monthlyData aggregate].
    apply js_sort_Sorted; intros x y Hx Hy; unfold by_month; [done|].
    apply Hasym; eapply proj1, proj1, (elem_of_monthlyData localeCompare), elem_of_js_sort;
      eassumption.
  - intros Hcollates. cbn [monthlyData aggregate].
    rewrite (js_sort_ext _ (by_month String.compare)); [apply by_month_compare_Sorted|].
    intros x y Hx Hy. unfold by_month.
    apply Hcollates;
      eapply proj1, proj1, (elem_of_monthlyData localeCompare), elem_of_js_sort; eassumption.
Qed.

(** C1: the server-side computation over the stored items and the
    client-side computation over the transactions yield the same totals,
    balance, category breakdown and monthly series, whenever the items hold
    the fields of the transactions in the same order. *)
Theorem analytics_server_client_agree (items : list KvItem) (ts : list Transaction) :
  value <$> items = data <$> ts →
  analytics_handler localeCompare items = calculateAnalytics localeCompare ts.
Proof.
  intros Hsame.
  by rewrite analytics_handler_aggregate, calculateAnalytics_aggregate, Hsame.
Qed.

(** C3: when no date begins with [valueOf], the monthly series of either
    computation has one record per distinct seven-character date prefix of
    the input and no other, each with the income and expense sums of its
    bucket; it is sorted by the collation of the host whenever that is
    asymmetric on the buckets of the input, and it is in ascending order of
    the month strings, character code by character code, whenever the
    collation orders the buckets of the input so. *)
Theorem monthlyData_series (ts : list Transaction) (items : list KvItem) :
  "valueOf" ∉ month_of <$> (data <$> ts) →
  "valueOf" ∉ month_of <$> (value <$> items) →
  monthly_series localeCompare (data <$> ts)
    (monthlyData (calculateAnalytics localeCompare ts))
  ∧ monthly_series localeCompare (value <$> items)
      (monthlyData (analytics_handler localeCompare items)).
Proof.
  intros Hts Hitems. rewrite calculateAnalytics_aggregate, analytics_handler_aggregate.
  split; by apply aggregate_monthly_series.
Qed.

(** C4: in either computation the balance is the total income minus the
    total expense, the former being the sum of the amounts of the income
    transactions and the latter that of the expense transactions. *)
Theorem balance_income_minus_expense (ts : list Transaction) (items : list KvItem) :
  (balance (calculateAnalytics localeCompare ts)
     = num_sub (totalIncome (calculateAnalytics localeCompare ts))
               (totalExpense (calculateAnalytics localeCompare ts))
   ∧ totalIncome (calculateAnalytics localeCompare ts)
     = sum_amounts (filter (λ t, type t = Income) (data <$> ts))
   ∧ totalExpense (calculateAnalytics localeCompare ts)
     = sum_amounts (filter (λ t, type t = Expense) (data <$> ts)))
  ∧ (balance (analytics_handler localeCompare items)
       = num_sub (totalIncome (analytics_handler localeCompare items))
                 (totalExpense (analytics_handler localeCompare items))
     ∧ totalIncome (analytics_handler localeCompare items)
       = sum_amounts (filter (λ t, type t = Income) (value <$> items))
     ∧ totalExpense (analytics_handler localeCompare items)
       = sum_amounts (filter (λ t, type t = Expense) (value <$> items))).
Proof.
  rewrite calculateAnalytics_aggregate, analytics_handler_aggregate.
  repeat split.
Qed.

(** C9: on the empty sequence both computations return zero totals, a zero
    balance, an empty category mapping and an empty monthly series. *)
Theorem analytics_of_nothing :
  calculateAnalytics localeCompare []
    = {| totalIncome := num_zero; totalExpense := num_zero; balance := num_zero;
         expensesByCategory := []; monthlyData := [] |}
  ∧ analytics_handler localeCompare []
    = {| totalIncome := num_zero; totalExpense := num_zero; balance := num_zero;
         expensesByCategory := []; monthlyData := [] |}.
Proof.
  unfold calculateAnalytics, analytics_handler. cbn.
  rewrite num_sub_zero_zero. done.
Qed.

(** X23: under exact arithmetic, when no expense has for its category a
    name that objects inherit, the values of the category mapping are
    numbers and add up to the total expense, in either computation. *)
Theorem expensesByCategory_sum `{!ExactArith Num}
    (ts : list Transaction) (items : list KvItem) :
  (∀ t : Transaction, t ∈ ts → type t = Expense → category t ∉ Object_prototype_names) →
  (∀ i, i ∈ items → type (value i) = Expense → category (value i) ∉ Object_prototype_names) →
  sum_values (expensesByCategory (calculateAnalytics localeCompare ts))
    = Amount (totalExpense (calculateAnalytics localeCompare ts))
  ∧ sum_values (expensesByCategory (analytics_handler localeCompare items))
    = Amount (totalExpense (analytics_handler localeCompare items)).
Proof.
  intros Hts Hitems. rewrite calculateAnalytics_aggregate, analytics_handler_aggregate.
  split; apply aggregate_sum_values.
  - intros t' [t [-> Ht]]%list_elem_of_fmap. by apply Hts.
  - intros t' [i [-> Hi]]%list_elem_of_fmap. by apply Hitems.
Qed.
End AnalyticsClaims.

(** A string is none of the strings of a given list. *)
Ltac not_listed :=
  let Hin := fresh "Hin" in
  let Heq := fresh "Heq" in
  intros Hin; cbn in Hin;
  repeat (apply elem_of_cons in Hin as [Heq|Hin]; [discriminate Heq|]);
  by apply elem_of_nil in Hin.

Lemma analytics_server_client_agree_witness :
  value <$> (to_item <$> sample_transactions) = data <$> sample_transactions
  ∧ analytics_handler String.compare (to_item <$> sample_transactions)
    = calculateAnalytics String.compare sample_transactions.
Proof.
  split; [reflexivity|].
  apply (analytics_server_client_agree String.compare
           (to_item <$> sample_transactions) sample_transactions).
  reflexivity.
Defined.

(** The series of transactions whose months come in no order, one of
    them twice. *)
Lemma monthlyData_series_witness :
  ("valueOf" ∉ month_of <$> (data <$> unordered_transactions))
  ∧ collates_by_code String.compare (month_of <$> (data <$> unordered_transactions))
  ∧ month_of <$> (data <$> unordered_transactions)
    = ["2024-03"; "2023-11"; "2024-01"; "2023-11"]
  ∧ month <$> monthlyData (calculateAnalytics String.compare unordered_transactions)
    = ["2023-11"; "2024-01"; "2024-03"]
  ∧ StronglySorted (λ a b, (month a ≤ month b)%string)
      (monthlyData (calculateAnalytics String.compare unordered_transactions)).
Proof.
  assert ("valueOf" ∉ month_of <$> (data <$> unordered_transactions)) as Hnone.
  { not_listed. }
  assert (collates_by_code String.compare (month_of <$> (data <$> unordered_transactions)))
    as Hcollates by (intros a b _ _; reflexivity).
  split_and!; [exact Hnone | exact Hcollates | reflexivity | reflexivity |].
  destruct (monthlyData_series String.compare unordered_transactions [] Hnone)
    as [Hclient _]; [apply not_elem_of_nil|].
  destruct Hclient as (_ & _ & _ & _ & Hsorted). exact (Hsorted Hcollates).
Defined.

Lemma expensesByCategory_sum_witness :
  ExactArith ZNumber
  ∧ (∀ t : Transaction, t ∈ sample_transactions → type t = Expense →
       category t ∉ Object_prototype_names)
  ∧ sum_values (expensesByCategory (calculateAnalytics String.compare sample_transactions))
    = Amount (totalExpense (calculateAnalytics String.compare sample_transactions)).
Proof.
  assert (∀ t : Transaction, t ∈ sample_transactions → type t = Expense →
            category t ∉ Object_prototype_names) as Hown.
  { intros t Hin _. cbn in Hin.
    repeat (apply elem_of_cons in Hin as [->|Hin]; [not_listed|]).
    by apply elem_of_nil in Hin. }
  split_and!; [exact ZNumber_exact | exact Hown |].
  destruct (@expensesByCategory_sum ZNumber String.compare ZNumber_exact
              sample_transactions [] Hown) as [Hclient _]; [|exact Hclient].
  intros i Hi. by apply elem_of_nil in Hi.
Defined.

(** C3, the order: under a collation in the manner of the hosts' default
    one, the series of two transactions dated in words is the April record
    followed by the March record, which is not the ascending order of the
    month strings character code by character code ([M] is 77, [a] is
    97). *)
Lemma monthlyData_not_by_character_code :
  month_of <$> (data <$> worded_transactions) = ["March 2"; "april 2"]
  ∧ sample_localeCompare "april 2" "March 2" = Lt
  ∧ month <$> monthlyData (calculateAnalytics sample_localeCompare worded_transactions)
    = ["april 2"; "March 2"]
  ∧ month <$> monthlyData (analytics_handler sample_localeCompare
                             (to_item <$> worded_transactions))
    = ["april 2"; "March 2"]
  ∧ ¬ StronglySorted (λ a b, (month a ≤ month b)%string)
        (monthlyData (calculateAnalytics sample_localeCompare worded_transactions))
  ∧ ¬ StronglySorted (λ a b, (month a ≤ month b)%string)
        (monthlyData (analytics_handler sample_localeCompare
                        (to_item <$> worded_transactions))).
Proof.
  split_and!; [reflexivity | reflexivity | reflexivity | reflexivity | |].
  - intros Hsorted. vm_compute in Hsorted.
    apply StronglySorted_inv in Hsorted as [_ Hle].
    apply Forall_cons in Hle as [Hle _]. exact Hle.
  - intros Hsorted. vm_compute in Hsorted.
    apply StronglySorted_inv in Hsorted as [_ Hle].
    apply Forall_cons in Hle as [Hle _]. exact Hle.
Qed.

(** C2: two expenses, 5 under the category [__proto__] and 2 under [food].
    The total expense is 7; the category mapping holds the food entry
    alone, so its values add up to 2. With [constructor] in the place of
    [__proto__] the total expense is 7 again; the entry of the category is
    a text, and so is the sum of the values. The server computes the
    same. *)
Theorem expensesByCategory_sum_inherited :
  (totalExpense (calculateAnalytics String.compare proto_transactions) = 7%Z
   ∧ expensesByCategory (calculateAnalytics String.compare proto_transactions)
     = [("food", @Amount ZNumber 2%Z)]
   ∧ sum_values (expensesByCategory (calculateAnalytics String.compare proto_transactions))
     = @Amount ZNumber 2%Z
   ∧ analytics_handler String.compare (to_item <$> proto_transactions)
     = calculateAnalytics String.compare proto_transactions)
  ∧ (totalExpense (calculateAnalytics String.compare constructor_transactions) = 7%Z
     ∧ expensesByCategory (calculateAnalytics String.compare constructor_transactions)
       = [("constructor", @Text ZNumber "function Object() { [native code] }5");
          ("food", @Amount ZNumber 2%Z)]
     ∧ sum_values
         (expensesByCategory (calculateAnalytics String.compare constructor_transactions))
       = @Text ZNumber "0function Object() { [native code] }52"
     ∧ analytics_handler String.compare (to_item <$> constructor_transactions)
       = calculateAnalytics String.compare constructor_transactions).
Proof. repeat split. Qed.

(** Under a category that names an inherited function the entry is a
    text, and it depends on the order of the expenses. *)
Example expensesByCategory_constructor :
  expensesByCategory
    (calculateAnalytics String.compare
       [ {| id := "1"; data := sample_data Expense 5 "constructor" "2024-01-05" |};
         {| id := "2"; data := sample_data Expense 2 "constructor" "2024-01-06" |} ])
  = [("constructor", @Text ZNumber "function Object() { [native code] }52")]
  ∧ expensesByCategory
      (calculateAnalytics String.compare
         [ {| id := "2"; data := sample_data Expense 2 "constructor" "2024-01-06" |};
           {| id := "1"; data := sample_data Expense 5 "constructor" "2024-01-05" |} ])
    = [("constructor", @Text ZNumber "function Object() { [native code] }25")].
Proof. split; reflexivity. Qed.

(** A date that begins with [valueOf] gets no bucket. *)
Example monthlyData_valueOf :
  monthlyData (calculateAnalytics String.compare valueOf_transactions)
  = [ @Build_MonthRecord ZNumber "2024-01" 0%Z 2%Z ].
Proof. reflexivity. Qed.

(** ** Strings *)


Lemma prefix_append (p s : string) : String.prefix p (p +:+ s) = true.
Proof.
  induction p as [|c p IH]; simpl; [by destruct s|].
  destruct (ascii_dec c c); [done|congruence].
Qed.




(** ** The store and the handlers *)

Section HandlerFacts.
Context `{Num : JsNumber}.
Variable parseFloat : jsval → number.
Variable JSON_parse : string → option jsval.
Variable host_message : string.
Implicit Types (store : gmap string jsval) (v : jsval) (o : jsobj jsval).

Lemma get_transactions_listed store :
  get_transactions store
  = {| status := 200; body := JObj [("transactions", JArr (listed_transactions store))] |}.
Proof. reflexivity. Qed.


Lemma kv_getByPrefix_empty p : kv_getByPrefix p (∅ : gmap string jsval) = [].
Proof. unfold kv_getByPrefix. by rewrite map_to_list_empty. Qed.

Lemma get_prop_obj o k :
  get_prop host_message (JObj o) k = Ok (field o k).
Proof. reflexivity. Qed.


(** The body of a create request that is [null] makes the handler fail
    with the generic error. *)
Lemma post_transactions_null env store :
  post_transactions parseFloat host_message env (Some JNull) store
  = ({| status := 500; body := error_envelope "Failed to add transaction" |}, store).
Proof. reflexivity. Qed.

(** The validation of a create request: the request is refused as soon as
    one of the three required fields reads as a falsy value. *)
Lemma post_transactions_refused env o store :
  truthy (field o "type") = false
  ∨ truthy (field o "amount") = false
  ∨ truthy (field o "category") = false →
  post_transactions parseFloat host_message env (Some (JObj o)) store
  = ({| status := 400; body := error_envelope "Missing required fields" |}, store).
Proof.
  unfold field. intros Hfalsy. unfold post_transactions, post_transactions_try. cbn.
  destruct Hfalsy as [-> | [-> | ->]]; cbn.
  - done.
  - by rewrite orb_true_r.
  - by rewrite orb_true_r.
Qed.

(** A create request that passes the validation stores the new record
    under the new key and answers with it. *)
Lemma post_transactions_accepted env o store :
  truthy (field o "type") = true →
  truthy (field o "amount") = true →
  truthy (field o "category") = true →
  post_transactions parseFloat host_message env (Some (JObj o)) store
  = ({| status := 200;
        body := JObj [("success", JBool true);
                      ("transaction",
                       JObj (spread_into [("id", JStr (new_transactionId env))]
                               (JObj (manual_transaction parseFloat env
                                        (field o "type")
                                        (field o "amount")
                                        (field o "category")
                                        (field o "description")
                                        (field o "date")))))] |},
     kv_set ("transaction:" +:+ new_transactionId env)
       (JObj (manual_transaction parseFloat env
                (field o "type")
                (field o "amount")
                (field o "category")
                (field o "description")
                (field o "date")))
       store).
Proof.
  unfold field. intros Hty Ham Hcat. unfold post_transactions, post_transactions_try. cbn.
  by rewrite Hty, Ham, Hcat.
Qed.

End HandlerFacts.

Section ReceiptFacts.
Context `{Num : JsNumber}.
Variable parseFloat : jsval → number.
Variable JSON_parse : string → option jsval.
Variable host_message : string.
Implicit Types (store : gmap string jsval) (v : jsval) (env : Env).


(** Once the classifier has returned a truthy text, the handler goes on
    with the parse of the text. *)
Lemma process_receipt_try_answered env body store generatedText :
  classifier_returns host_message env body generatedText →
  truthy generatedText = true →
  process_receipt_try parseFloat JSON_parse host_message env (Some body) store
  = (receiptData ← parse_receipt JSON_parse generatedText;
     total ← get_prop host_message receiptData "total";
     category ← get_prop host_message receiptData "category";
     description ← get_prop host_message receiptData "description";
     vendor ← get_prop host_message receiptData "vendor";
     Ok ({| status := 200;
            body := JObj [("success", JBool true);
                          ("receiptData", receiptData);
                          ("transaction",
                           JObj (spread_into [("id", JStr (new_transactionId env))]
                                   (JObj (receipt_transaction parseFloat env
                                            total category description vendor))))] |},
         kv_set ("transaction:" +:+ new_transactionId env)
           (JObj (receipt_transaction parseFloat env total category description vendor))
           store)).
Proof.
  intros (imageBase64 & geminiApiKey & st & result
          & Himage & Htruthy & Hkey & Hnonempty & Hfetch & Htext) Hgenerated.
  unfold process_receipt_try. cbn [await_json mbind completion_bind].
  rewrite Himage. cbn [mbind completion_bind].
  rewrite Htruthy, Hkey. cbn [negb].
  destruct geminiApiKey as [|c key]; [done|].
  rewrite Hfetch. cbn [negb await_json mbind completion_bind].
  rewrite Htext. cbn [mbind completion_bind].
  rewrite Hgenerated. reflexivity.
Qed.

(** A falsy text stops the handler before the parse. *)
Lemma process_receipt_try_no_text env body store generatedText :
  classifier_returns host_message env body generatedText →
  truthy generatedText = false →
  process_receipt_try parseFloat JSON_parse host_message env (Some body) store
  = Throw "No response from Gemini API".
Proof.
  intros (imageBase64 & geminiApiKey & st & result
          & Himage & Htruthy & Hkey & Hnonempty & Hfetch & Htext) Hgenerated.
  unfold process_receipt_try. cbn [await_json mbind completion_bind].
  rewrite Himage. cbn [mbind completion_bind].
  rewrite Htruthy, Hkey. cbn [negb].
  destruct geminiApiKey as [|c key]; [done|].
  rewrite Hfetch. cbn [negb await_json mbind completion_bind].
  rewrite Htext. cbn [mbind completion_bind].
  rewrite Hgenerated. reflexivity.
Qed.
End ReceiptFacts.

Section HandlerClaims.
Context `{Num : JsNumber}.
Variable parseFloat : jsval → number.
Variable JSON_parse : string → option jsval.
Variable host_message : string.
Implicit Types (store : gmap string jsval) (o : jsobj jsval) (env : Env).

(** C5: when the transport call has succeeded and the text it returned is
    one that [JSON.parse] rejects, receipt processing answers 500 with an
    error message, which for a text that is not empty is that of the
    invalid-response error, and the store is left as it was. *)
Theorem process_receipt_invalid_response env body store text :
  classifier_returns host_message env body (JStr text) →
  JSON_parse (trim text) = None →
  ∃ message,
    process_receipt parseFloat JSON_parse host_message env (Some body) store
    = ({| status := 500;
          body := error_envelope ("Failed to process receipt: " +:+ message) |},
       store)
    ∧ (text ≠ "" → message = "Invalid response format from Gemini API").
Proof.
  intros Hreturns Hparse. unfold process_receipt.
  destruct (truthy (JStr text)) eqn:Htruthy.
  - exists "Invalid response format from Gemini API". split; [|done].
    rewrite (process_receipt_try_answered _ _ _ _ _ _ _ Hreturns Htruthy).
    cbn [parse_receipt]. rewrite Hparse. reflexivity.
  - exists "No response from Gemini API". split.
    + by rewrite (process_receipt_try_no_text _ _ _ _ _ _ _ Hreturns Htruthy).
    + intros Hnonempty. simpl in Htruthy.
      by rewrite bool_decide_eq_false_2 in Htruthy.
Qed.

(** C6: a create request whose object lacks the type, the amount or the
    category is answered 400 with the error 'Missing required fields', and
    the store is left as it was. *)
Theorem create_missing_field env o store :
  obj_get o "type" = None ∨ obj_get o "amount" = None ∨ obj_get o "category" = None →
  post_transactions parseFloat host_message env (Some (JObj o)) store
  = ({| status := 400; body := error_envelope "Missing required fields" |}, store).
Proof.
  intros Habsent. apply post_transactions_refused. unfold field.
  destruct Habsent as [-> | [-> | ->]]; auto.
Qed.



End HandlerClaims.

(** ** The handlers on the sample host *)

Lemma sample_classifier_returns (text : string) :
  classifier_returns "TypeError" (sample_env text) sample_receipt_request (JStr text).
Proof.
  exists (JStr "aGVsbG8="), "secret", 200.
  eexists. split_and!; try reflexivity; done.
Qed.

Lemma process_receipt_invalid_response_witness :
  classifier_returns "TypeError" (sample_env "Sorry, no receipt here.")
    sample_receipt_request (JStr "Sorry, no receipt here.")
  ∧ sample_JSON_parse (trim "Sorry, no receipt here.") = None
  ∧ ∃ message,
      process_receipt sample_parseFloat sample_JSON_parse "TypeError"
        (sample_env "Sorry, no receipt here.") (Some sample_receipt_request) ∅
      = ({| status := 500;
            body := error_envelope ("Failed to process receipt: " +:+ message) |},
         ∅)
      ∧ ("Sorry, no receipt here." ≠ "" → message = "Invalid response format from Gemini API").
Proof.
  split_and!; [apply sample_classifier_returns | reflexivity |].
  apply (process_receipt_invalid_response sample_parseFloat sample_JSON_parse "TypeError"
           (sample_env "Sorry, no receipt here.") sample_receipt_request ∅
           "Sorry, no receipt here.");
    [apply sample_classifier_returns | reflexivity].
Defined.

Lemma create_missing_field_witness :
  (obj_get incomplete_request "type" = None
   ∨ obj_get incomplete_request "amount" = None
   ∨ obj_get incomplete_request "category" = None)
  ∧ post_transactions sample_parseFloat "TypeError" (sample_env "")
      (Some (JObj incomplete_request)) ∅
    = ({| status := 400; body := error_envelope "Missing required fields" |}, ∅).
Proof.
  assert (obj_get incomplete_request "type" = None
          ∨ obj_get incomplete_request "amount" = None
          ∨ obj_get incomplete_request "category" = None) as Habsent
    by (right; right; reflexivity).
  split; [exact Habsent|].
  apply (create_missing_field sample_parseFloat "TypeError" _ _ ∅ Habsent).
Defined.





(** * Further properties of the server *)

Section StoreFacts.
Context `{Num : JsNumber}.
Implicit Types (store : gmap string jsval) (v : jsval) (p k : string).

Lemma elem_of_kv_getByPrefix p store k v :
  (k, v) ∈ kv_getByPrefix p store ↔ String.prefix p k = true ∧ store !! k = Some v.
Proof.
  unfold kv_getByPrefix. rewrite list_elem_of_filter, elem_of_map_to_list. done.
Qed.


(** The scan before a delete: the deleted pair and what the scan finds
    afterwards. *)
Lemma kv_getByPrefix_del p k v store :
  String.prefix p k = true → store !! k = Some v →
  (k, v) :: kv_getByPrefix p (kv_del k store) ≡ₚ kv_getByPrefix p store.
Proof.
  intros Hp Hstored. unfold kv_getByPrefix, kv_del.
  rewrite <- (map_to_list_delete store k v Hstored).
  by rewrite filter_cons_True.
Qed.
End StoreFacts.

Section DeleteExtras.
Context `{Num : JsNumber}.
Variable parseFloat : jsval → number.
Variable host_message : string.
Implicit Types (store : gmap string jsval) (o : jsobj jsval) (env : Env).

(** X1: deleting a stored transaction answers 200 and takes exactly its
    record out of the listing: the listing before is the deleted record
    together with the listing after, no key of the resulting store is the
    deleted one, and every other key keeps its value. *)
Theorem delete_removes_listed transactionId v store :
  store !! ("transaction:" +:+ transactionId) = Some v →
  status (delete_transaction transactionId store).1 = 200
  ∧ format_item ("transaction:" +:+ transactionId, v)
      :: listed_transactions (delete_transaction transactionId store).2
    ≡ₚ listed_transactions store
  ∧ (delete_transaction transactionId store).2 !! ("transaction:" +:+ transactionId) = None
  ∧ (∀ k, k ≠ "transaction:" +:+ transactionId →
       (delete_transaction transactionId store).2 !! k = store !! k).
Proof.
  intros Hstored. cbn [delete_transaction fst snd]. split_and!.
  - reflexivity.
  - unfold listed_transactions. rewrite <- fmap_cons.
    by rewrite kv_getByPrefix_del by (apply prefix_append || done).
  - apply lookup_delete_eq.
  - intros k Hk. by apply lookup_delete_ne.
Qed.

(** X2: deleting an id that is not stored answers 200 all the same and
    leaves the store as it was; deleting twice is deleting once. *)
Theorem delete_absent_or_twice transactionId store :
  (store !! ("transaction:" +:+ transactionId) = None →
     delete_transaction transactionId store
     = ({| status := 200; body := JObj [("success", JBool true)] |}, store))
  ∧ delete_transaction transactionId (delete_transaction transactionId store).2
    = delete_transaction transactionId store.
Proof.
  unfold delete_transaction, kv_del. cbn [snd]. split.
  - intros Habsent. by rewrite delete_id.
  - by rewrite delete_delete_eq.
Qed.

(** X3: creating a transaction under an id that is not in use and then
    deleting that id gives the store back as it was. *)
Theorem create_then_delete env o store :
  truthy (field o "type") = true →
  truthy (field o "amount") = true →
  truthy (field o "category") = true →
  store !! ("transaction:" +:+ new_transactionId env) = None →
  (delete_transaction (new_transactionId env)
     (post_transactions parseFloat host_message env (Some (JObj o)) store).2).2
  = store.
Proof.
  intros Hty Ham Hcat Hfresh.
  rewrite (post_transactions_accepted _ _ _ _ _ Hty Ham Hcat).
  cbn [delete_transaction snd]. unfold kv_del, kv_set. by apply delete_insert_id.
Qed.

(** X4: a create request, whatever it is, either is answered 200 and
    writes one value under the key of the new id, or is answered 400 or 500
    and leaves the store as it was. *)
Theorem post_transactions_effect env req store :
  (status (post_transactions parseFloat host_message env req store).1 = 200
   ∧ ∃ v, (post_transactions parseFloat host_message env req store).2
          = <["transaction:" +:+ new_transactionId env := v]> store)
  ∨ ((status (post_transactions parseFloat host_message env req store).1 = 400
      ∨ status (post_transactions parseFloat host_message env req store).1 = 500)
     ∧ (post_transactions parseFloat host_message env req store).2 = store).
Proof.
  unfold post_transactions, post_transactions_try.
  destruct req as [body|]; cbn [await_json mbind completion_bind];
    [|right; split; [by right | done]].
  destruct (get_prop host_message body "type") as [ty|] eqn:Hty;
    [|right; split; [by right | done]].
  assert (∀ k, ∃ x, get_prop host_message body k = Ok x) as Hread.
  { intros k. destruct body; try by eexists. all: done. }
  destruct (Hread "amount") as [am ->], (Hread "category") as [cat ->].
  destruct (Hread "description") as [desc ->], (Hread "date") as [dt ->].
  cbn [mbind completion_bind].
  destruct (negb (truthy ty) || negb (truthy am) || negb (truthy cat)).
  - right. split; [by left | done].
  - left. split; [done|]. by eexists.
Qed.
End DeleteExtras.

(** Closes a goal about a request that is answered 400 or 500 with the
    store untouched. *)
Ltac refused :=
  right; split; [first [by left | by right] | done].

Section SpreadFacts.
Context {V : Type}.
Implicit Types (o target src : jsobj V) (k : string) (v : V).

Lemma obj_get_elem_of_iff o k v :
  NoDup (obj_keys o) → obj_get o k = Some v ↔ (k, v) ∈ o.
Proof.
  intros Hnd. split; [apply obj_get_Some_elem_of | by apply elem_of_obj_get].
Qed.

(** Reading does not depend on the order in which distinct keys are
    kept. *)
Lemma obj_get_Permutation o o' k :
  NoDup (obj_keys o) → o ≡ₚ o' → obj_get o k = obj_get o' k.
Proof.
  intros Hnd Hperm.
  assert (NoDup (obj_keys o')) as Hnd'.
  { unfold obj_keys in *. by rewrite <- Hperm. }
  destruct (obj_get o k) as [v|] eqn:Hget.
  - symmetry. apply obj_get_elem_of_iff; [done|].
    rewrite <- Hperm. by apply obj_get_elem_of_iff.
  - destruct (obj_get o' k) as [v'|] eqn:Hget'; [|done].
    apply obj_get_elem_of_iff in Hget'; [|done].
    rewrite <- Hperm in Hget'. apply obj_get_elem_of_iff in Hget'; [|done].
    congruence.
Qed.

Lemma obj_get_foldl_set target (entries : list (string * V)) k :
  NoDup (entries.*1) →
  obj_get (foldl (λ o e, obj_set o e.1 e.2) target entries) k
  = match obj_get entries k with
    | Some v => Some v
    | None => obj_get target k
    end.
Proof.
  revert target. induction entries as [|[k' v'] entries IH]; intros target Hnd; [done|].
  rewrite fmap_cons in Hnd. apply NoDup_cons in Hnd as [Hk' Hnd].
  cbn [foldl fst snd obj_get]. rewrite IH by done. rewrite obj_get_set.
  destruct (decide (k' = k)) as [->|Hne]; [|done].
  by rewrite (proj2 (obj_get_None entries k)).
Qed.

(** [{...target, ...src}[k]] is [src[k]] when [src] has the key, and
    [target[k]] otherwise. *)
Lemma obj_get_obj_assign target src k :
  NoDup (obj_keys src) →
  obj_get (obj_assign target src) k
  = match obj_get src k with
    | Some v => Some v
    | None => obj_get target k
    end.
Proof.
  intros Hnd. unfold obj_assign.
  rewrite obj_get_foldl_set.
  - by rewrite <- (obj_get_Permutation src (own_entries src) k)
      by (done || by rewrite own_entries_Permutation).
  - unfold obj_keys in Hnd. by rewrite own_entries_Permutation.
Qed.

Lemma obj_assign_NoDup target src :
  NoDup (obj_keys target) → NoDup (obj_keys (obj_assign target src)).
Proof.
  unfold obj_assign. generalize (own_entries src). intros entries. revert target.
  induction entries as [|e entries IH]; intros target Hnd; [done|].
  cbn [foldl]. apply IH. by apply obj_set_NoDup.
Qed.
End SpreadFacts.

Section ListingExtras.
Context `{Num : JsNumber}.
Variable parseFloat : jsval → number.
Variable JSON_parse : string → option jsval.
Variable host_message : string.
Implicit Types (store : gmap string jsval) (o : jsobj jsval) (env : Env).

(** X5: the listing hands back every stored field unchanged and adds the
    id recovered from the key; a stored object that has an id field of its
    own keeps it, in place of the one of the key. *)
Theorem format_item_fields key o :
  NoDup (obj_keys o) →
  ∃ record,
    format_item (key, JObj o) = JObj record
    ∧ ∀ k, obj_get record k
           = match obj_get o k with
             | Some v => Some v
             | None => if decide (k = "id")
                       then Some (JStr (replace_first "transaction:" "" key))
                       else None
             end.
Proof.
  intros Hnd. eexists. split; [reflexivity|]. intros k.
  cbn [fst snd]. change (spread_into ?t (JObj o)) with (obj_assign t o).
  rewrite obj_get_obj_assign by done.
  destruct (obj_get o k); [done|]. cbn [obj_get].
  destruct (decide ("id" = k)) as [<-|Hne]; [done|].
  by rewrite decide_False.
Qed.




(** X8: a receipt request, whatever it is and whatever the classifier
    does, either is answered 200 and writes one value under the key of the
    new id, or is answered 400 or 500 and leaves the store as it was. *)
Theorem process_receipt_effect env req store :
  (status (process_receipt parseFloat JSON_parse host_message env req store).1 = 200
   ∧ ∃ v, (process_receipt parseFloat JSON_parse host_message env req store).2
          = <["transaction:" +:+ new_transactionId env := v]> store)
  ∨ ((status (process_receipt parseFloat JSON_parse host_message env req store).1 = 400
      ∨ status (process_receipt parseFloat JSON_parse host_message env req store).1 = 500)
     ∧ (process_receipt parseFloat JSON_parse host_message env req store).2 = store).
Proof.
  unfold process_receipt, process_receipt_try.
  destruct req as [body|]; cbn [await_json mbind completion_bind]; [|refused].
  destruct (get_prop host_message body "imageBase64") as [imageBase64|];
    cbn [mbind completion_bind]; [|refused].
  destruct (truthy imageBase64); cbn [negb]; [|refused].
  destruct (GEMINI_API_KEY env) as [[|c key]|]; [refused | | refused].
  destruct (fetch env _ imageBase64) as [|ok st json]; [refused|].
  destruct ok; cbn [negb]; [|refused].
  destruct json as [result|]; cbn [await_json mbind completion_bind]; [|refused].
  destruct (generated_text host_message result) as [generatedText|];
    cbn [mbind completion_bind]; [|refused].
  destruct (truthy generatedText); cbn [negb]; [|refused].
  destruct (parse_receipt JSON_parse generatedText) as [receiptData|];
    cbn [mbind completion_bind]; [|refused].
  destruct (get_prop host_message receiptData "total");
    cbn [mbind completion_bind]; [|refused].
  destruct (get_prop host_message receiptData "category");
    cbn [mbind completion_bind]; [|refused].
  destruct (get_prop host_message receiptData "description");
    cbn [mbind completion_bind]; [|refused].
  destruct (get_prop host_message receiptData "vendor");
    cbn [mbind completion_bind]; [|refused].
  left. split; [done|]. by eexists.
Qed.

(** X9: a receipt request without an image, or with a falsy one, is
    answered 400 with the error 'No image provided'; one with an image,
    when the key of the classifier is not configured or empty, is answered
    500 with the error 'Gemini API key not configured'; in both cases the
    store is left as it was. *)
Theorem process_receipt_guards env body store imageBase64 :
  get_prop host_message body "imageBase64" = Ok imageBase64 →
  (truthy imageBase64 = false →
     process_receipt parseFloat JSON_parse host_message env (Some body) store
     = ({| status := 400; body := error_envelope "No image provided" |}, store))
  ∧ (truthy imageBase64 = true →
     GEMINI_API_KEY env = None ∨ GEMINI_API_KEY env = Some "" →
     process_receipt parseFloat JSON_parse host_message env (Some body) store
     = ({| status := 500; body := error_envelope "Gemini API key not configured" |}, store)).
Proof.
  intros Himage. unfold process_receipt, process_receipt_try.
  cbn [await_json mbind completion_bind]. rewrite Himage. cbn [mbind completion_bind].
  split.
  - by intros ->.
  - intros -> [-> | ->]; reflexivity.
Qed.

(** X10: when the call to the classifier fails, receipt processing answers
    500 and leaves the store as it was; the message names the status of a
    response that is not ok, and is that of the runtime when the call
    itself is rejected. *)
Theorem process_receipt_upstream_failure env body store imageBase64 geminiApiKey :
  get_prop host_message body "imageBase64" = Ok imageBase64 →
  truthy imageBase64 = true →
  GEMINI_API_KEY env = Some geminiApiKey →
  geminiApiKey ≠ "" →
  (∀ st json,
     fetch env (gemini_url geminiApiKey) imageBase64 = FetchResponse false st json →
     process_receipt parseFloat JSON_parse host_message env (Some body) store
     = ({| status := 500;
           body := error_envelope
                     ("Failed to process receipt: Gemini API error: " +:+ pretty st) |},
        store))
  ∧ (fetch env (gemini_url geminiApiKey) imageBase64 = NetworkFailure →
     process_receipt parseFloat JSON_parse host_message env (Some body) store
     = ({| status := 500;
           body := error_envelope ("Failed to process receipt: " +:+ host_message) |},
        store)).
Proof.
  intros Himage Htruthy Hkey Hnonempty. unfold process_receipt, process_receipt_try.
  cbn [await_json mbind completion_bind]. rewrite Himage. cbn [mbind completion_bind].
  rewrite Htruthy, Hkey. cbn [negb].
  destruct geminiApiKey as [|c key]; [done|].
  split.
  - intros st json ->. reflexivity.
  - intros ->. reflexivity.
Qed.
End ListingExtras.

(** * Further properties of the aggregates and of the client *)

Set Warnings "-clear-no-such-hyp".

Section SetValuesFacts.
Context {A : Type} `{EqDecision A}.
Implicit Types (l seen : list A).

Lemma Set_values_foldl_spec seen l :
  NoDup seen →
  NoDup (foldl (λ seen x, if decide (x ∈ seen) then seen else seen ++ [x]) seen l)
  ∧ ∀ x, x ∈ foldl (λ seen x, if decide (x ∈ seen) then seen else seen ++ [x]) seen l
         ↔ x ∈ seen ∨ x ∈ l.
Proof.
  revert seen. induction l as [|y l IH]; intros seen Hnd; cbn [foldl].
  - split; [done|]. intros x. set_solver.
  - destruct (decide (y ∈ seen)) as [Hin|Hnin].
    + destruct (IH seen Hnd) as [Hnd' Hmem]. split; [done|].
      intros x. rewrite Hmem. set_solver.
    + assert (NoDup (seen ++ [y])) as Hnd1.
      { apply NoDup_app. split_and!; [done | | apply NoDup_singleton].
        by intros x Hx ->%list_elem_of_singleton. }
      destruct (IH _ Hnd1) as [Hnd' Hmem]. split; [done|].
      intros x. rewrite Hmem. set_solver.
Qed.

(** The elements of a set made from a list are the elements of the list,
    each once. *)
Lemma Set_values_spec l :
  NoDup (Set_values l) ∧ ∀ x, x ∈ Set_values l ↔ x ∈ l.
Proof.
  destruct (Set_values_foldl_spec [] l) as [Hnd Hmem]; [apply NoDup_nil_2|].
  split; [done|]. intros x. unfold Set_values. rewrite Hmem. set_solver.
Qed.
End SetValuesFacts.

Section CategoryFacts.
Context `{Num : JsNumber}.
Implicit Types (l : list TransactionData) (t : TransactionData) (acc : jsobj CategoryValue).

Lemma obj_get_assign acc k v c :
  obj_get (assign acc k v) c
  = if decide (k = c ∧ k ≠ "__proto__") then Some v else obj_get acc c.
Proof.
  unfold assign. destruct (decide (k = "__proto__")) as [->|Hne].
  - by rewrite decide_False by (by intros [_ ?]).
  - rewrite obj_get_set. destruct (decide (k = c)) as [->|Hkc].
    + by rewrite decide_True.
    + by rewrite decide_False by (by intros [? _]).
Qed.

Lemma add_to_category_keys acc t :
  obj_keys (add_to_category acc t)
  = if decide (category t = "__proto__") then obj_keys acc
    else if decide (category t ∈ obj_keys acc) then obj_keys acc
         else obj_keys acc ++ [category t].
Proof. unfold add_to_category, assign. case_decide; [done | apply obj_keys_set]. Qed.

Lemma foldl_add_to_category_keys acc l :
  obj_keys (foldl add_to_category acc l)
  = foldl (λ seen x, if decide (x ∈ seen) then seen else seen ++ [x])
      (obj_keys acc) (filter (λ c, c ≠ "__proto__") ((λ t, category t) <$> l)).
Proof.
  revert acc. induction l as [|t l IH]; intros acc; [done|].
  cbn [foldl fmap list_fmap]. rewrite IH, add_to_category_keys, filter_cons.
  destruct (decide (category t = "__proto__")) as [Heq|Hne].
  - rewrite (decide_False (P := category t ≠ _)) by (intros Hn; by apply Hn). done.
  - rewrite (decide_True (P := category t ≠ _)) by done. done.
Qed.

(** [__proto__] never becomes a key of the category mapping. *)
Lemma breakdown_proto l : obj_get (foldl add_to_category [] l) "__proto__" = None.
Proof.
  apply obj_get_None. rewrite foldl_add_to_category_keys.
  intros Hin.
  apply (proj1 (proj2 (Set_values_spec
                         (filter (λ c, c ≠ "__proto__") ((λ t, category t) <$> l)))
                  "__proto__")) in Hin.
  by apply list_elem_of_filter in Hin as [Hne _].
Qed.

(** Under a key that is no inherited name the category mapping holds a
    number, if anything. *)
Lemma breakdown_numeric l c :
  c ∉ Object_prototype_names →
  match obj_get (foldl add_to_category [] l) c with
  | Some (Text _) => False
  | _ => True
  end.
Proof.
  intros Hc. induction l as [|t l IH] using rev_ind; [done|].
  rewrite foldl_snoc. unfold add_to_category at 1. rewrite obj_get_assign.
  case_decide as Hk; [|done]. destruct Hk as [<- _].
  unfold get_or_zero.
  destruct (obj_get (foldl add_to_category [] l) (category t)) as [[n|s]|]; [| done |].
  - cbn [value_truthy]. by destruct (num_truthy n).
  - by rewrite decide_False.
Qed.

Lemma category_sum_snoc c l t :
  category_sum c (l ++ [t])
  = if decide (type t = Expense ∧ category t = c)
    then num_add (category_sum c l) (amount t) else category_sum c l.
Proof.
  unfold category_sum, sum_amounts. rewrite filter_app, filter_cons, filter_nil.
  case_decide.
  - by rewrite foldl_snoc.
  - by rewrite app_nil_r.
Qed.

Lemma category_sum_absent c l :
  c ∉ (λ t, category t) <$> filter (λ t, type t = Expense) l → category_sum c l = num_zero.
Proof.
  intros Hc. unfold category_sum.
  replace (filter (λ t, type t = Expense ∧ category t = c) l) with (@nil TransactionData);
    [done|].
  symmetry. induction l as [|t l IH]; [done|].
  rewrite filter_cons in Hc. rewrite filter_cons. case_decide as Hty.
  - rewrite fmap_cons, not_elem_of_cons in Hc. destruct Hc as [Hne Hc].
    rewrite decide_False; [by apply IH|]. intros [_ Heq]. by apply Hne.
  - rewrite decide_False; [by apply IH|]. by intros [? _].
Qed.
End CategoryFacts.

Lemma enumeration_order_Permutation (ks : list string) : enumeration_order ks ≡ₚ ks.
Proof.
  unfold enumeration_order, Object_keys. rewrite own_entries_Permutation.
  rewrite <- list_fmap_compose.
  change (fst ∘ (λ k : string, (k, ()))) with (@Datatypes.id string).
  by rewrite list_fmap_id.
Qed.

(** Keys that are array indices come first, in numeric order. *)
Example enumeration_order_example :
  enumeration_order ["b"; "10"; "a"; "9"] = ["9"; "10"; "b"; "a"].
Proof. reflexivity. Qed.

Section BreakdownExtras.
Context `{Num : JsNumber}.
Variable localeCompare : string → string → comparison.
Implicit Types (l : list TransactionData) (t : TransactionData).

Lemma aggregate_keys l :
  Object_keys (expensesByCategory (aggregate localeCompare l))
    = enumeration_order
        (Set_values (filter (λ c, c ≠ "__proto__")
                       ((λ t, category t) <$> filter (λ t, type t = Expense) l)))
  ∧ NoDup (Object_keys (expensesByCategory (aggregate localeCompare l)))
  ∧ ∀ c, c ∈ Object_keys (expensesByCategory (aggregate localeCompare l))
         ↔ c ≠ "__proto__" ∧ ∃ t, t ∈ l ∧ type t = Expense ∧ category t = c.
Proof.
  assert (Object_keys (expensesByCategory (aggregate localeCompare l))
          = enumeration_order
              (Set_values (filter (λ c, c ≠ "__proto__")
                             ((λ t, category t) <$> filter (λ t, type t = Expense) l))))
    as Hkeys.
  { rewrite Object_keys_enumeration. f_equal. apply foldl_add_to_category_keys. }
  split; [exact Hkeys|]. rewrite Hkeys. split.
  - rewrite enumeration_order_Permutation. apply Set_values_spec.
  - intros c. rewrite enumeration_order_Permutation.
    rewrite (proj2 (Set_values_spec _)), list_elem_of_filter, list_elem_of_fmap.
    split.
    + intros [Hne [t [-> [Hty Hin]%list_elem_of_filter]]]. split; [done|]. by exists t.
    + intros [Hne [t (Hin & Hty & <-)]]. split; [done|]. exists t. split; [done|].
      by apply list_elem_of_filter.
Qed.

(** X11: in either computation the category mapping enumerates as its
    keys the categories of the expense transactions other than
    [__proto__], each once: those that are array indices first, in numeric
    order, then the others in the order of their first appearance. A
    category without an expense never appears, and neither does
    [__proto__]. *)
Theorem expensesByCategory_keys (ts : list Transaction) (items : list KvItem) :
  (Object_keys (expensesByCategory (calculateAnalytics localeCompare ts))
     = enumeration_order
         (Set_values (filter (λ c, c ≠ "__proto__")
                        ((λ t, category t) <$> filter (λ t, type t = Expense) (data <$> ts))))
   ∧ NoDup (Object_keys (expensesByCategory (calculateAnalytics localeCompare ts)))
   ∧ ∀ c, c ∈ Object_keys (expensesByCategory (calculateAnalytics localeCompare ts))
          ↔ c ≠ "__proto__" ∧ ∃ t, t ∈ data <$> ts ∧ type t = Expense ∧ category t = c)
  ∧ (Object_keys (expensesByCategory (analytics_handler localeCompare items))
       = enumeration_order
           (Set_values (filter (λ c, c ≠ "__proto__")
                          ((λ t, category t)
                             <$> filter (λ t, type t = Expense) (value <$> items))))
     ∧ NoDup (Object_keys (expensesByCategory (analytics_handler localeCompare items)))
     ∧ ∀ c, c ∈ Object_keys (expensesByCategory (analytics_handler localeCompare items))
            ↔ c ≠ "__proto__" ∧ ∃ t, t ∈ value <$> items ∧ type t = Expense ∧ category t = c).
Proof.
  rewrite calculateAnalytics_aggregate, analytics_handler_aggregate.
  split; apply aggregate_keys.
Qed.

Context `{!ExactArith Num}.

Lemma breakdown_get l c :
  c ∉ Object_prototype_names →
  obj_get (foldl add_to_category [] (filter (λ t, type t = Expense) l)) c
  = if decide (c ∈ (λ t, category t) <$> filter (λ t, type t = Expense) l)
    then Some (Amount (category_sum c l)) else None.
Proof.
  intros Hc.
  assert (c ≠ "__proto__") as Hproto
    by (intros ->; apply Hc; unfold Object_prototype_names; set_solver).
  induction l as [|t l IH] using rev_ind.
  - rewrite filter_nil.
    destruct (decide (c ∈ (λ t, category t) <$> [])) as [Hin|_];
      [by apply elem_of_nil in Hin | done].
  - rewrite filter_app, filter_cons, filter_nil, category_sum_snoc.
    destruct (decide (type t = Expense)) as [Hty|Hty].
    + rewrite foldl_snoc, fmap_snoc. unfold add_to_category at 1.
      rewrite obj_get_assign. destruct (decide (category t = c)) as [Heq|Hne].
      * rewrite !(decide_True (P := _ ∧ _)) by (split; congruence).
        rewrite decide_True by (apply elem_of_app; right; rewrite Heq; left).
        f_equal. unfold get_or_zero. rewrite Heq, IH.
        destruct (decide (c ∈ (λ t, category t) <$> filter (λ t, type t = Expense) l))
          as [Hin|Hnin].
        -- cbn [value_truthy]. destruct (num_truthy (category_sum c l)) eqn:Hv; [done|].
           by rewrite (num_falsy_zero _ Hv).
        -- rewrite (decide_False (P := _ ∈ Object_prototype_names)) by exact Hc.
           cbn [operand_plus value_plus]. by rewrite category_sum_absent.
      * rewrite !(decide_False (P := _ ∧ _)) by (by intros [? ?]). rewrite IH.
        destruct (decide (c ∈ (λ t, category t) <$> filter (λ t, type t = Expense) l))
          as [Hin|Hnin].
        -- rewrite decide_True; [done|]. apply elem_of_app. by left.
        -- rewrite decide_False; [done|]. rewrite elem_of_app, list_elem_of_singleton.
           intros [?|?]; [done | by apply Hne].
    + rewrite app_nil_r. rewrite (decide_False (P := _ ∧ _)) by (by intros [? _]). done.
Qed.

(** X12: under exact arithmetic, in either computation, the entry of the
    category mapping for a category that is no inherited name is the sum
    of the amounts of the expense transactions of that category, and there
    is no entry for such a category when no expense has it; there is never
    an entry for [__proto__]. *)
Theorem expensesByCategory_lookup (ts : list Transaction) (items : list KvItem) (c : string) :
  (c ∉ Object_prototype_names →
     obj_get (expensesByCategory (calculateAnalytics localeCompare ts)) c
       = (if decide (c ∈ (λ t, category t) <$> filter (λ t, type t = Expense) (data <$> ts))
          then Some (Amount (category_sum c (data <$> ts))) else None)
     ∧ obj_get (expensesByCategory (analytics_handler localeCompare items)) c
       = (if decide (c ∈ (λ t, category t)
                          <$> filter (λ t, type t = Expense) (value <$> items))
          then Some (Amount (category_sum c (value <$> items))) else None))
  ∧ obj_get (expensesByCategory (calculateAnalytics localeCompare ts)) "__proto__" = None
  ∧ obj_get (expensesByCategory (analytics_handler localeCompare items)) "__proto__" = None.
Proof.
  rewrite calculateAnalytics_aggregate, analytics_handler_aggregate.
  split_and!; [|apply breakdown_proto..].
  intros Hc. split; by apply breakdown_get.
Qed.

Lemma sum_amounts_Permutation l l' : l ≡ₚ l' → sum_amounts l = sum_amounts l'.
Proof.
  intros Hperm. unfold sum_amounts.
  rewrite <- !(foldl_fmap num_add num_zero _ (λ t, amount t)).
  apply foldl_num_add_Permutation. by rewrite Hperm.
Qed.

Lemma aggregate_Permutation l l' (c : string) :
  l ≡ₚ l' →
  totalIncome (aggregate localeCompare l) = totalIncome (aggregate localeCompare l')
  ∧ totalExpense (aggregate localeCompare l) = totalExpense (aggregate localeCompare l')
  ∧ balance (aggregate localeCompare l) = balance (aggregate localeCompare l')
  ∧ (c ∉ Object_prototype_names →
     obj_get (expensesByCategory (aggregate localeCompare l)) c
     = obj_get (expensesByCategory (aggregate localeCompare l')) c).
Proof.
  intros Hperm. cbn [totalIncome totalExpense balance expensesByCategory aggregate].
  assert (∀ P `{!∀ t, Decision (P t)},
            sum_amounts (filter P l) = sum_amounts (filter P l')) as Hsum.
  { intros P ?. apply sum_amounts_Permutation. by rewrite Hperm. }
  split_and!; [apply Hsum | apply Hsum | by rewrite !Hsum |].
  intros Hc. rewrite !breakdown_get by done. unfold category_sum. rewrite Hsum.
  destruct (decide (c ∈ (λ t, category t) <$> filter (λ t, type t = Expense) l)) as [Hin|Hnin].
  - rewrite decide_True; [done|]. by rewrite <- Hperm.
  - rewrite decide_False; [done|]. by rewrite <- Hperm.
Qed.

(** X13: under exact arithmetic the totals, the balance and the entry of
    every category that is no inherited name do not depend on the order
    in which the transactions come, in either computation. *)
Theorem analytics_order_independent (ts ts' : list Transaction) (items items' : list KvItem)
    (c : string) :
  (ts ≡ₚ ts' →
     totalIncome (calculateAnalytics localeCompare ts)
       = totalIncome (calculateAnalytics localeCompare ts')
     ∧ totalExpense (calculateAnalytics localeCompare ts)
       = totalExpense (calculateAnalytics localeCompare ts')
     ∧ balance (calculateAnalytics localeCompare ts)
       = balance (calculateAnalytics localeCompare ts')
     ∧ (c ∉ Object_prototype_names →
        obj_get (expensesByCategory (calculateAnalytics localeCompare ts)) c
        = obj_get (expensesByCategory (calculateAnalytics localeCompare ts')) c))
  ∧ (items ≡ₚ items' →
     totalIncome (analytics_handler localeCompare items)
       = totalIncome (analytics_handler localeCompare items')
     ∧ totalExpense (analytics_handler localeCompare items)
       = totalExpense (analytics_handler localeCompare items')
     ∧ balance (analytics_handler localeCompare items)
       = balance (analytics_handler localeCompare items')
     ∧ (c ∉ Object_prototype_names →
        obj_get (expensesByCategory (analytics_handler localeCompare items)) c
        = obj_get (expensesByCategory (analytics_handler localeCompare items')) c)).
Proof.
  rewrite !calculateAnalytics_aggregate, !analytics_handler_aggregate.
  split; intros Hperm; apply aggregate_Permutation; by rewrite Hperm.
Qed.
End BreakdownExtras.

Section MonthlyTotals.
Context `{Num : JsNumber} `{!ExactArith Num}.
Variable localeCompare : string → string → comparison.
Implicit Types (l : list TransactionData) (t : TransactionData) (acc : jsobj MonthRecord).

(** The sum, over the records of an accumulator, of one of their fields. *)
Lemma sum_field_obj_set (g : MonthRecord → number) acc k (r v : MonthRecord) a :
  match obj_get acc k with Some r' => r' = r | None => g r = num_zero end →
  g v = num_add (g r) a →
  foldl num_add num_zero (g <$> (snd <$> obj_set acc k v))
  = num_add (foldl num_add num_zero (g <$> (snd <$> acc))) a.
Proof.
  intros Hr Hv. induction acc as [|[k' r'] acc IH].
  - cbn in Hr. cbn [obj_set fmap list_fmap snd].
    rewrite !foldl_num_add_cons, Hv, Hr. cbn [foldl].
    by rewrite num_add_zero_r, !num_add_zero_l.
  - cbn [obj_get] in Hr. cbn [obj_set]. destruct (decide (k' = k)) as [->|Hne].
    + subst r'. rewrite !fmap_cons, !foldl_num_add_cons. cbn [snd]. rewrite Hv.
      rewrite <- !num_add_assoc. f_equal. apply num_add_comm.
    + rewrite !fmap_cons, !foldl_num_add_cons, IH by done. cbn [snd].
      apply num_add_assoc.
Qed.

Lemma sum_field_add_to_month (g : MonthRecord → number) (ty : TransactionType) acc t :
  month_of t ∉ Object_prototype_names →
  g {| month := month_of t; income := num_zero; expense := num_zero |} = num_zero →
  (∀ r a, g (add_to_field r ty a) = num_add (g r) a) →
  (∀ r a ty', ty' ≠ ty → g (add_to_field r ty' a) = g r) →
  foldl num_add num_zero (g <$> (snd <$> add_to_month acc t))
  = num_add (foldl num_add num_zero (g <$> (snd <$> acc)))
      (if decide (type t = ty) then amount t else num_zero).
Proof.
  intros Hown Hzero Hsame Hother.
  set (r := match obj_get acc (month_of t) with
            | Some r => r
            | None => {| month := month_of t; income := num_zero; expense := num_zero |}
            end).
  assert (add_to_month acc t
          = obj_set acc (month_of t) (add_to_field r (type t) (amount t))) as ->.
  { unfold add_to_month. cbv zeta. fold (month_of t). subst r.
    destruct (obj_get acc (month_of t)); [done|]. by rewrite decide_False. }
  apply (sum_field_obj_set g acc (month_of t) r).
  - subst r. destruct (obj_get acc (month_of t)); [reflexivity | exact Hzero].
  - case_decide as Hty.
    + rewrite Hty. apply Hsame.
    + rewrite Hother by done. by rewrite num_add_zero_r.
Qed.

Lemma sum_field_monthly (g : MonthRecord → number) (ty : TransactionType) l :
  (∀ m, g {| month := m; income := num_zero; expense := num_zero |} = num_zero) →
  (∀ r a, g (add_to_field r ty a) = num_add (g r) a) →
  (∀ r a ty', ty' ≠ ty → g (add_to_field r ty' a) = g r) →
  foldl num_add num_zero (g <$> (snd <$> foldl add_to_month [] l))
  = sum_amounts (filter (λ t, type t = ty ∧ month_of t ≠ "valueOf") l).
Proof.
  intros Hzero Hsame Hother. induction l as [|t l IH] using rev_ind; [done|].
  rewrite foldl_snoc, filter_app, filter_cons, filter_nil.
  destruct (decide (month_of t ∈ Object_prototype_names)) as [Hm|Hm].
  - assert (add_to_month (foldl add_to_month [] l) t = foldl add_to_month [] l) as ->.
    { unfold add_to_month at 1. cbv beta zeta. fold (month_of t).
      rewrite monthly_acc_get, decide_False by (by intros [_ ?]).
      by rewrite decide_True. }
    apply month_of_inherited in Hm.
    rewrite (decide_False (P := _ ∧ _)) by (by intros [_ ?]).
    by rewrite app_nil_r.
  - rewrite (sum_field_add_to_month g ty) by done. rewrite IH. unfold sum_amounts.
    assert (month_of t ≠ "valueOf") as Hne
      by (by intros Heq; apply Hm, month_of_inherited).
    destruct (decide (type t = ty)) as [Hty|Hty].
    + rewrite (decide_True (P := _ ∧ _)) by done. by rewrite foldl_snoc.
    + rewrite (decide_False (P := _ ∧ _)) by (by intros [? _]).
      by rewrite app_nil_r, num_add_zero_r.
Qed.

Lemma aggregate_skips_valueOf l :
  totalIncome (aggregate localeCompare (filter (λ t, month_of t ≠ "valueOf") l))
    = sum_amounts (filter (λ t, type t = Income ∧ month_of t ≠ "valueOf") l)
  ∧ totalExpense (aggregate localeCompare (filter (λ t, month_of t ≠ "valueOf") l))
    = sum_amounts (filter (λ t, type t = Expense ∧ month_of t ≠ "valueOf") l).
Proof.
  cbn [totalIncome totalExpense aggregate]. by rewrite !list_filter_filter.
Qed.

Lemma aggregate_monthly_totals l :
  foldl num_add num_zero ((λ r, income r) <$> monthlyData (aggregate localeCompare l))
    = totalIncome (aggregate localeCompare (filter (λ t, month_of t ≠ "valueOf") l))
  ∧ foldl num_add num_zero ((λ r, expense r) <$> monthlyData (aggregate localeCompare l))
    = totalExpense (aggregate localeCompare (filter (λ t, month_of t ≠ "valueOf") l)).
Proof.
  destruct (aggregate_skips_valueOf l) as [-> ->]. split.
  - rewrite (foldl_num_add_Permutation _ _ ((λ r, income r) <$> (snd <$> foldl add_to_month [] l)))
      by (by rewrite monthlyData_Permutation).
    apply (sum_field_monthly _ Income); [done | done |].
    intros r a [] Hty; done.
  - rewrite (foldl_num_add_Permutation _ _ ((λ r, expense r) <$> (snd <$> foldl add_to_month [] l)))
      by (by rewrite monthlyData_Permutation).
    apply (sum_field_monthly _ Expense); [done | done |].
    intros r a [] Hty; done.
Qed.

(** X14: under exact arithmetic, in either computation, the incomes of the
    monthly series add up to the total income, and its expenses to the
    total expense, of the transactions whose date does not begin with
    [valueOf]: the amounts of the others reach the totals and no bucket. *)
Theorem monthlyData_adds_up (ts : list Transaction) (items : list KvItem) :
  (foldl num_add num_zero
     ((λ r, income r) <$> monthlyData (calculateAnalytics localeCompare ts))
   = totalIncome (calculateAnalytics localeCompare
                    (filter (λ t : Transaction, month_of t ≠ "valueOf") ts))
   ∧ foldl num_add num_zero
       ((λ r, expense r) <$> monthlyData (calculateAnalytics localeCompare ts))
     = totalExpense (calculateAnalytics localeCompare
                       (filter (λ t : Transaction, month_of t ≠ "valueOf") ts)))
  ∧ (foldl num_add num_zero
       ((λ r, income r) <$> monthlyData (analytics_handler localeCompare items))
     = totalIncome (analytics_handler localeCompare
                      (filter (λ i, month_of (value i) ≠ "valueOf") items))
     ∧ foldl num_add num_zero
         ((λ r, expense r) <$> monthlyData (analytics_handler localeCompare items))
       = totalExpense (analytics_handler localeCompare
                         (filter (λ i, month_of (value i) ≠ "valueOf") items))).
Proof.
  rewrite !calculateAnalytics_aggregate, !analytics_handler_aggregate.
  assert (data <$> filter (λ t : Transaction, month_of t ≠ "valueOf") ts
          = filter (λ t, month_of t ≠ "valueOf") (data <$> ts)) as ->
    by (symmetry; exact (filter_fmap_comm data (λ t, month_of t ≠ "valueOf") ts)).
  assert (value <$> filter (λ i, month_of (value i) ≠ "valueOf") items
          = filter (λ t, month_of t ≠ "valueOf") (value <$> items)) as ->
    by (symmetry; exact (filter_fmap_comm value (λ t, month_of t ≠ "valueOf") items)).
  split; apply aggregate_monthly_totals.
Qed.
End MonthlyTotals.

Lemma ZNumber_exact_sub : ExactSub ZNumber.
Proof.
  split; [exact ZNumber_exact|]. intros a b. simpl. apply Z.sub_add.
Qed.

Section ChartExtras.
Context `{Num : JsNumber} `{!ExactSub Num}.
Variable localeCompare : string → string → comparison.
Variable toLocaleDateString : string → string.
Implicit Types (a b c d x y z : number).

Lemma num_add_cancel_r x y z : num_add x z = num_add y z → x = y.
Proof.
  intros Heq.
  rewrite <- (num_add_zero_r x), <- (num_add_zero_r y).
  rewrite <- (num_sub_add num_zero z), (num_add_comm (num_sub num_zero z) z).
  by rewrite !num_add_assoc, Heq.
Qed.

Lemma num_sub_unique y z w : num_add y z = w → y = num_sub w z.
Proof. intros <-. apply (num_add_cancel_r _ _ z). by rewrite num_sub_add. Qed.

Lemma num_sub_add_distr a b c d :
  num_add (num_sub a b) (num_sub c d) = num_sub (num_add a c) (num_add b d).
Proof.
  apply num_sub_unique.
  rewrite (num_add_comm b d), num_add_assoc, <- (num_add_assoc (num_sub a b)).
  rewrite num_sub_add, (num_add_comm (num_sub a b) c), <- num_add_assoc.
  by rewrite num_sub_add, num_add_comm.
Qed.

Lemma chartData_net_sum (data : list MonthRecord) :
  foldl num_add num_zero ((λ i : ChartItem, net i) <$> chartData toLocaleDateString data)
  = num_sub (foldl num_add num_zero ((λ r, income r) <$> data))
            (foldl num_add num_zero ((λ r, expense r) <$> data)).
Proof.
  induction data as [|r data IH].
  - cbn. symmetry. apply num_sub_zero_zero.
  - unfold chartData in *. rewrite !fmap_cons, !foldl_num_add_cons, IH. cbn [net].
    apply num_sub_add_distr.
Qed.

(** X15: under exact arithmetic with subtraction, the net values that the
    income and expense chart computes for the monthly series of either
    computation add up to the balance of the transactions whose date does
    not begin with [valueOf]. *)
Theorem chart_net_is_balance (ts : list Transaction) (items : list KvItem) :
  foldl num_add num_zero
    ((λ i : ChartItem, net i)
       <$> chartData toLocaleDateString (monthlyData (calculateAnalytics localeCompare ts)))
  = balance (calculateAnalytics localeCompare
               (filter (λ t : Transaction, month_of t ≠ "valueOf") ts))
  ∧ foldl num_add num_zero
      ((λ i : ChartItem, net i)
         <$> chartData toLocaleDateString
               (monthlyData (analytics_handler localeCompare items)))
    = balance (analytics_handler localeCompare
                 (filter (λ i, month_of (value i) ≠ "valueOf") items)).
Proof.
  rewrite !chartData_net_sum.
  destruct (monthlyData_adds_up localeCompare ts items) as [[-> ->] [-> ->]].
  rewrite !calculateAnalytics_aggregate, !analytics_handler_aggregate. done.
Qed.
End ChartExtras.

Section ClientExtras.
Context `{Num : JsNumber}.
Variable localeCompare : string → string → comparison.
Implicit Types (st : AppState) (env : Env) (t : TransactionData).

Lemma aggregate_snoc (l : list TransactionData) t :
  totalIncome (aggregate localeCompare (l ++ [t]))
    = (if decide (type t = Income)
       then num_add (totalIncome (aggregate localeCompare l)) (amount t)
       else totalIncome (aggregate localeCompare l))
  ∧ totalExpense (aggregate localeCompare (l ++ [t]))
    = (if decide (type t = Expense)
       then num_add (totalExpense (aggregate localeCompare l)) (amount t)
       else totalExpense (aggregate localeCompare l))
  ∧ expensesByCategory (aggregate localeCompare (l ++ [t]))
    = (if decide (type t = Expense)
       then add_to_category (expensesByCategory (aggregate localeCompare l)) t
       else expensesByCategory (aggregate localeCompare l)).
Proof.
  cbn [totalIncome totalExpense expensesByCategory aggregate]. unfold sum_amounts.
  rewrite !filter_app, !filter_cons, !filter_nil.
  split_and!; case_decide; by rewrite ?foldl_snoc, ?app_nil_r.
Qed.

(** X16: [addTransactionLocal] appends the given fields under the new id
    and the current timestamp, saves the new list, and recomputes the
    analytics: an income raises the total income by its amount and leaves
    the total expense and the category mapping alone; an expense raises
    the total expense by its amount and leaves the total income and the
    entries of the other categories alone; when its category is no
    inherited name, the entry of the category becomes the number it held,
    or 0 when it held none or a falsy one, plus the amount; when its
    category is [__proto__], the category mapping stays as it was. *)
Theorem addTransactionLocal_analytics env t st :
  transactions (addTransactionLocal localeCompare env t st).2
    = transactions st ++ [(addTransactionLocal localeCompare env t st).1]
  ∧ saved_transactions (addTransactionLocal localeCompare env t st).2
    = Some (transactions (addTransactionLocal localeCompare env t st).2)
  ∧ id (addTransactionLocal localeCompare env t st).1 = new_transactionId env
  ∧ createdAt (addTransactionLocal localeCompare env t st).1 = toISOString_createdAt env
  ∧ match type t with
    | Income =>
        totalIncome (analytics (addTransactionLocal localeCompare env t st).2)
          = num_add (totalIncome (calculateAnalytics localeCompare (transactions st)))
                    (amount t)
        ∧ totalExpense (analytics (addTransactionLocal localeCompare env t st).2)
          = totalExpense (calculateAnalytics localeCompare (transactions st))
        ∧ expensesByCategory (analytics (addTransactionLocal localeCompare env t st).2)
          = expensesByCategory (calculateAnalytics localeCompare (transactions st))
    | Expense =>
        totalExpense (analytics (addTransactionLocal localeCompare env t st).2)
          = num_add (totalExpense (calculateAnalytics localeCompare (transactions st)))
                    (amount t)
        ∧ totalIncome (analytics (addTransactionLocal localeCompare env t st).2)
          = totalIncome (calculateAnalytics localeCompare (transactions st))
        ∧ (∀ c, category t ≠ c →
             obj_get (expensesByCategory
                        (analytics (addTransactionLocal localeCompare env t st).2)) c
             = obj_get (expensesByCategory
                          (calculateAnalytics localeCompare (transactions st))) c)
        ∧ (category t ∉ Object_prototype_names →
             obj_get (expensesByCategory
                        (analytics (addTransactionLocal localeCompare env t st).2))
               (category t)
             = Some (Amount
                       (num_add
                          match obj_get (expensesByCategory
                                           (calculateAnalytics localeCompare
                                              (transactions st))) (category t) with
                          | Some (Amount n) => if num_truthy n then n else num_zero
                          | _ => num_zero
                          end
                          (amount t))))
        ∧ (category t = "__proto__" →
             expensesByCategory (analytics (addTransactionLocal localeCompare env t st).2)
             = expensesByCategory (calculateAnalytics localeCompare (transactions st)))
    end.
Proof.
  cbn [addTransactionLocal fst snd transactions saved_transactions analytics id data createdAt].
  split_and!; try reflexivity.
  rewrite !calculateAnalytics_aggregate, fmap_snoc.
  match goal with |- context [aggregate _ (?l ++ [?x])] =>
    destruct (aggregate_snoc l x) as (Hinc & Hexp & Hcat) end.
  cbn [data type amount category] in *.
  destruct (type t).
  - rewrite decide_True in Hinc by done.
    rewrite decide_False in Hexp by done. rewrite decide_False in Hcat by done.
    by rewrite Hinc, Hexp, Hcat.
  - rewrite decide_False in Hinc by done.
    rewrite decide_True in Hexp by done. rewrite decide_True in Hcat by done.
    rewrite Hinc, Hexp, Hcat. split_and!; [done | done | | |].
    + intros c Hne. unfold add_to_category at 1. cbn [category amount].
      rewrite obj_get_assign. by rewrite decide_False by (by intros [? _]).
    + intros Hown. unfold add_to_category at 1. cbn [category amount].
      rewrite obj_get_assign.
      rewrite decide_True
        by (split; [done|]; intros Heq; apply Hown; rewrite Heq;
            unfold Object_prototype_names; set_solver).
      f_equal. unfold get_or_zero.
      pose proof (breakdown_numeric
                    (filter (λ t', type t' = Expense) (data <$> transactions st))
                    (category t) Hown) as Hnum.
      cbn [expensesByCategory aggregate].
      destruct (obj_get _ (category t)) as [[n|s]|]; [| done |].
      * cbn [value_truthy]. by destruct (num_truthy n).
      * by rewrite decide_False.
    + intros Heq. unfold add_to_category, assign. cbn [category].
      by rewrite decide_True.
Qed.

(** X17: [deleteTransactionLocal] keeps, in their order, the transactions
    whose id is not the given one, and drops all the others; the analytics
    are those of what is kept, which is also what is saved; the sample-data
    flag is left alone; an id that no transaction has changes nothing in
    the list, and deleting the same id again changes nothing more. *)
Theorem deleteTransactionLocal_spec transactionId st :
  (∀ t : Transaction, t ∈ transactions (deleteTransactionLocal localeCompare transactionId st)
        ↔ t ∈ transactions st ∧ id t ≠ transactionId)
  ∧ transactions (deleteTransactionLocal localeCompare transactionId st)
      `sublist_of` transactions st
  ∧ analytics (deleteTransactionLocal localeCompare transactionId st)
    = calculateAnalytics localeCompare
        (transactions (deleteTransactionLocal localeCompare transactionId st))
  ∧ saved_transactions (deleteTransactionLocal localeCompare transactionId st)
    = Some (transactions (deleteTransactionLocal localeCompare transactionId st))
  ∧ showingLocalMode (deleteTransactionLocal localeCompare transactionId st)
    = showingLocalMode st
  ∧ ((∀ t : Transaction, t ∈ transactions st → id t ≠ transactionId) →
       transactions (deleteTransactionLocal localeCompare transactionId st)
       = transactions st)
  ∧ deleteTransactionLocal localeCompare transactionId
      (deleteTransactionLocal localeCompare transactionId st)
    = deleteTransactionLocal localeCompare transactionId st.
Proof.
  cbn [deleteTransactionLocal transactions analytics saved_transactions showingLocalMode].
  split_and!; try reflexivity.
  - intros t. rewrite list_elem_of_filter. tauto.
  - apply sublist_filter.
  - intros Hnone. induction (transactions st) as [|t l IH]; [done|].
    rewrite filter_cons_True by (apply Hnone; left).
    f_equal. apply IH. intros t' Ht'. apply Hnone. by right.
  - unfold deleteTransactionLocal. cbn [transactions showingLocalMode].
    by rewrite list_filter_filter_l by done.
Qed.

(** X18: adding a transaction under an id that no transaction has and then
    deleting that id gives back the list the state had, with the analytics
    of that list. *)
Theorem add_then_delete_local env t st :
  (∀ t' : Transaction, t' ∈ transactions st → id t' ≠ new_transactionId env) →
  transactions
    (deleteTransactionLocal localeCompare
       (id (addTransactionLocal localeCompare env t st).1)
       (addTransactionLocal localeCompare env t st).2)
  = transactions st
  ∧ analytics
      (deleteTransactionLocal localeCompare
         (id (addTransactionLocal localeCompare env t st).1)
         (addTransactionLocal localeCompare env t st).2)
    = calculateAnalytics localeCompare (transactions st)
  ∧ saved_transactions
      (deleteTransactionLocal localeCompare
         (id (addTransactionLocal localeCompare env t st).1)
         (addTransactionLocal localeCompare env t st).2)
    = Some (transactions st).
Proof.
  intros Hfresh.
  cbn [addTransactionLocal deleteTransactionLocal fst snd transactions analytics
       saved_transactions id].
  assert (filter (λ t' : Transaction, id t' ≠ new_transactionId env) (transactions st)
          = transactions st) as Hkeep.
  { induction (transactions st) as [|t' l IH]; [done|].
    rewrite filter_cons_True by (apply Hfresh; left).
    f_equal. apply IH. intros t'' Ht''. apply Hfresh. by right. }
  rewrite filter_app, filter_cons_False, filter_nil, app_nil_r, Hkeep; [done|].
  cbn [id]. by intros Hne.
Qed.
End ClientExtras.

(** * Further properties of the form and of the history *)

Section FormExtras.
Context `{Num : JsNumber}.
Variable parseFloat : jsval → number.
Variable host_message : string.
Implicit Types (formData : jsobj string) (store : gmap string jsval) (env : Env).

Lemma obj_get_copy formData k :
  NoDup (obj_keys formData) → obj_get (obj_assign [] formData) k = obj_get formData k.
Proof.
  intros Hnd. rewrite obj_get_obj_assign by done. by destruct (obj_get formData k).
Qed.

(** X19: [handleInputChange] sets the named field to the value and leaves
    the other fields as they were, except that a change of the type also
    empties the category; the fields stay pairwise distinct. *)
Theorem handleInputChange_spec (fld value : string) formData :
  NoDup (obj_keys formData) →
  NoDup (obj_keys (handleInputChange fld value formData))
  ∧ ∀ k, obj_get (handleInputChange fld value formData) k
         = if decide (fld = "type" ∧ k = "category") then Some ""
           else if decide (k = fld) then Some value
           else obj_get formData k.
Proof.
  intros Hnd. unfold handleInputChange.
  assert (NoDup (obj_keys (obj_set (obj_assign [] formData) fld value))) as Hnd1.
  { apply obj_set_NoDup, obj_assign_NoDup, NoDup_nil_2. }
  assert (∀ k, obj_get (obj_set (obj_assign [] formData) fld value) k
               = if decide (k = fld) then Some value else obj_get formData k) as Hget1.
  { intros k. rewrite obj_get_set, obj_get_copy by done.
    destruct (decide (fld = k)) as [->|?]; [by rewrite decide_True|].
    by rewrite decide_False. }
  destruct (decide (fld = "type")) as [->|Hfld].
  - split; [apply obj_set_NoDup, obj_assign_NoDup, NoDup_nil_2|].
    intros k. rewrite obj_get_set, obj_get_copy, Hget1 by done.
    destruct (decide ("category" = k)) as [<-|Hk].
    + by rewrite decide_True.
    + rewrite (decide_False (P := _ ∧ _)); [done|]. by intros [_ ->].
  - split; [done|]. intros k. rewrite Hget1.
    rewrite (decide_False (P := _ ∧ _)); [done|]. by intros [? _].
Qed.

Lemma obj_get_fmap_JStr (entries : list (string * string)) k :
  obj_get ((λ e : string * string, (e.1, JStr e.2)) <$> entries) k
  = JStr <$> obj_get entries k.
Proof.
  induction entries as [|[k' v] entries IH]; [done|].
  rewrite fmap_cons. cbn [obj_get fst snd]. by destruct (decide (k' = k)).
Qed.

Lemma field_form_body formData k :
  NoDup (obj_keys formData) →
  get_prop host_message (form_body formData) k
  = Ok (default JUndefined (JStr <$> obj_get formData k)).
Proof.
  intros Hnd. unfold form_body. cbn [get_prop]. rewrite obj_get_fmap_JStr.
  by rewrite <- (obj_get_Permutation formData (own_entries formData) k)
    by (done || by rewrite own_entries_Permutation).
Qed.

(** X20: a submission of the form is accepted by the server exactly when
    the texts of its type, amount and category are all non-empty, whatever
    the amount text says: it then stores the type and the category as
    given and the numeric parse of the amount text; otherwise it is
    answered 400 and nothing is stored. *)
Theorem form_submission_validated env formData store ty am cat :
  NoDup (obj_keys formData) →
  obj_get formData "type" = Some ty →
  obj_get formData "amount" = Some am →
  obj_get formData "category" = Some cat →
  (ty ≠ "" ∧ am ≠ "" ∧ cat ≠ "" →
     ∃ response transaction,
       post_transactions parseFloat host_message env (Some (form_body formData)) store
       = (response,
          kv_set ("transaction:" +:+ new_transactionId env) (JObj transaction) store)
       ∧ status response = 200
       ∧ obj_get transaction "type" = Some (JStr ty)
       ∧ obj_get transaction "amount" = Some (JNum (parseFloat (JStr am)))
       ∧ obj_get transaction "category" = Some (JStr cat))
  ∧ (ty = "" ∨ am = "" ∨ cat = "" →
     post_transactions parseFloat host_message env (Some (form_body formData)) store
     = ({| status := 400; body := error_envelope "Missing required fields" |}, store)).
Proof.
  intros Hnd Hty Ham Hcat.
  unfold post_transactions, post_transactions_try. cbn [await_json mbind completion_bind].
  rewrite !field_form_body by done. rewrite Hty, Ham, Hcat.
  cbn [mbind completion_bind fmap option_fmap option_map default].
  unfold Datatypes.id. cbn [truthy].
  split.
  - intros (Hty' & Ham' & Hcat'). rewrite !bool_decide_eq_false_2 by done.
    cbn [negb orb]. eexists _, _. split_and!; reflexivity.
  - intros Hempty.
    assert (negb (negb (bool_decide (ty = ""))) || negb (negb (bool_decide (am = "")))
            || negb (negb (bool_decide (cat = ""))) = true) as ->; [|done].
    rewrite !negb_involutive.
    destruct Hempty as [-> | [-> | ->]]; rewrite ?orb_true_r; done.
Qed.
End FormExtras.

Lemma includes_empty (s : string) : includes s "" = true.
Proof. by destruct s. Qed.

Section HistoryExtras.
Context `{Num : JsNumber}.
Variable toLowerCase : string → string.
Variable getTime : string → number.
Variable num_sign : number → comparison.
Implicit Types (ts : list Transaction) (t : Transaction).

(** X21: the categories offered by the history filter are the categories
    of the transactions, each once. *)
Theorem history_categories_spec ts :
  NoDup (history_categories ts)
  ∧ ∀ c, c ∈ history_categories ts ↔ ∃ t, t ∈ ts ∧ category t = c.
Proof.
  unfold history_categories.
  destruct (Set_values_spec ((λ t : Transaction, category t) <$> ts)) as [Hnd Hmem].
  split; [done|]. intros c. rewrite Hmem, list_elem_of_fmap. naive_solver.
Qed.

(** X22: the history shows, in some order, exactly the transactions that
    pass the filters, each as often as it occurs; with a type filter every
    transaction shown has that type, with a category filter other than
    'all' every transaction shown has that category, and with a search
    term that is empty in lower case and both filters on 'all' every
    transaction is shown. *)
Theorem sortedTransactions_spec searchTerm filterType filterCategory ts :
  sortedTransactions toLowerCase getTime num_sign searchTerm filterType filterCategory ts
    ≡ₚ filteredTransactions toLowerCase searchTerm filterType filterCategory ts
  ∧ (∀ t, t ∈ sortedTransactions toLowerCase getTime num_sign searchTerm filterType
                filterCategory ts
          ↔ t ∈ ts ∧ matches_filters toLowerCase searchTerm filterType filterCategory t = true)
  ∧ (∀ t ty, filterType = OnlyType ty →
       t ∈ sortedTransactions toLowerCase getTime num_sign searchTerm filterType
             filterCategory ts →
       type t = ty)
  ∧ (∀ t, filterCategory ≠ "all" →
       t ∈ sortedTransactions toLowerCase getTime num_sign searchTerm filterType
             filterCategory ts →
       category t = filterCategory)
  ∧ (toLowerCase searchTerm = "" → filterType = AllTypes → filterCategory = "all" →
       sortedTransactions toLowerCase getTime num_sign searchTerm filterType filterCategory ts
       ≡ₚ ts).
Proof.
  assert (∀ t, t ∈ sortedTransactions toLowerCase getTime num_sign searchTerm filterType
                     filterCategory ts
               ↔ t ∈ ts ∧ matches_filters toLowerCase searchTerm filterType filterCategory t
                          = true) as Hmem.
  { intros t. unfold sortedTransactions, filteredTransactions.
    rewrite elem_of_js_sort, list_elem_of_filter. tauto. }
  split_and!.
  - apply js_sort_Permutation.
  - exact Hmem.
  - intros t ty -> [_ Hmatch]%Hmem. unfold matches_filters in Hmatch.
    apply andb_true_iff in Hmatch as [[_ Hty]%andb_true_iff _].
    by apply bool_decide_eq_true in Hty.
  - intros t Hall [_ Hmatch]%Hmem. unfold matches_filters in Hmatch.
    apply andb_true_iff in Hmatch as [_ Hcat].
    rewrite bool_decide_eq_false_2 in Hcat by done.
    by apply bool_decide_eq_true in Hcat.
  - intros Hterm -> ->. unfold sortedTransactions, filteredTransactions.
    rewrite js_sort_Permutation. clear Hmem.
    induction ts as [|t ts IH]; [done|].
    rewrite filter_cons_True; [by apply Permutation_skip|].
    unfold matches_filters. by rewrite Hterm, includes_empty.
Qed.
End HistoryExtras.

(** * The further properties on the sample hosts *)

Lemma delete_removes_listed_witness :
  sample_store !! ("transaction:" +:+ "1700000000000_abcdefghi")
    = Some (JObj [("type", JStr "expense"); ("amount", JNum (sample_parseFloat (JStr "12")));
                  ("category", JStr "food"); ("source", JStr "manual")])
  ∧ status (delete_transaction "1700000000000_abcdefghi" sample_store).1 = 200
  ∧ (delete_transaction "1700000000000_abcdefghi" sample_store).2
      !! ("transaction:" +:+ "1700000000000_abcdefghi") = None.
Proof.
  assert (sample_store !! ("transaction:" +:+ "1700000000000_abcdefghi")
          = Some (JObj [("type", JStr "expense");
                        ("amount", JNum (sample_parseFloat (JStr "12")));
                        ("category", JStr "food"); ("source", JStr "manual")])) as Hstored
    by apply lookup_insert_eq.
  split; [exact Hstored|].
  destruct (delete_removes_listed "1700000000000_abcdefghi" _ sample_store Hstored)
    as (Hstatus & _ & Hgone & _).
  by split.
Defined.

Lemma create_then_delete_witness :
  truthy (field sample_request "type") = true
  ∧ truthy (field sample_request "amount") = true
  ∧ truthy (field sample_request "category") = true
  ∧ sample_store !! ("transaction:" +:+ new_transactionId (sample_env "")) = None
  ∧ (delete_transaction (new_transactionId (sample_env ""))
       (post_transactions sample_parseFloat "TypeError" (sample_env "")
          (Some (JObj sample_request)) sample_store).2).2
    = sample_store.
Proof.
  assert (sample_store !! ("transaction:" +:+ new_transactionId (sample_env "")) = None)
    as Hfresh by (by apply lookup_insert_None).
  split_and!; [reflexivity | reflexivity | reflexivity | exact Hfresh |].
  apply (create_then_delete sample_parseFloat "TypeError" (sample_env "") sample_request
           sample_store); [reflexivity | reflexivity | reflexivity | exact Hfresh].
Defined.

Lemma format_item_fields_witness :
  NoDup (obj_keys [("id", JStr "stored"); ("type", JStr "income" : @jsval ZNaNNumber)])
  ∧ ∃ record,
      format_item ("transaction:fromkey",
                   JObj [("id", JStr "stored"); ("type", JStr "income" : @jsval ZNaNNumber)])
      = JObj record
      ∧ obj_get record "id" = Some (JStr "stored")
      ∧ obj_get record "type" = Some (JStr "income").
Proof.
  assert (NoDup (obj_keys [("id", JStr "stored"); ("type", JStr "income" : @jsval ZNaNNumber)]))
    as Hnd
    by (apply NoDup_cons; split;
          [by intros Heq%list_elem_of_singleton | apply NoDup_singleton]).
  split; [exact Hnd|].
  destruct (format_item_fields "transaction:fromkey" _ Hnd) as (record & Hrecord & Hfields).
  exists record. split_and!; [exact Hrecord | apply Hfields | apply Hfields].
Defined.



Lemma process_receipt_guards_witness :
  get_prop "TypeError" (JObj [] : @jsval ZNaNNumber) "imageBase64" = Ok JUndefined
  ∧ process_receipt sample_parseFloat sample_JSON_parse "TypeError" (sample_env "")
      (Some (JObj [])) sample_store
    = ({| status := 400; body := error_envelope "No image provided" |}, sample_store).
Proof.
  split; [reflexivity|].
  apply (process_receipt_guards sample_parseFloat sample_JSON_parse "TypeError"
           (sample_env "") (JObj []) sample_store JUndefined); reflexivity.
Defined.

Lemma process_receipt_upstream_failure_witness :
  get_prop "TypeError" sample_receipt_request "imageBase64" = Ok (JStr "aGVsbG8=")
  ∧ truthy (JStr "aGVsbG8=" : @jsval ZNaNNumber) = true
  ∧ GEMINI_API_KEY sample_env_unavailable = Some "secret"
  ∧ "secret" ≠ ""
  ∧ process_receipt sample_parseFloat sample_JSON_parse "TypeError" sample_env_unavailable
      (Some sample_receipt_request) sample_store
    = ({| status := 500;
          body := error_envelope "Failed to process receipt: Gemini API error: 503" |},
       sample_store).
Proof.
  split_and!; [reflexivity | reflexivity | reflexivity | done |].
  destruct (process_receipt_upstream_failure sample_parseFloat sample_JSON_parse "TypeError"
              sample_env_unavailable sample_receipt_request sample_store
              (JStr "aGVsbG8=") "secret" eq_refl eq_refl eq_refl) as [Hstatus _]; [done|].
  apply (Hstatus 503 None). reflexivity.
Defined.

Lemma expensesByCategory_lookup_witness :
  ExactArith ZNumber
  ∧ ("food" ∉ Object_prototype_names)
  ∧ obj_get (expensesByCategory (calculateAnalytics String.compare proto_transactions)) "food"
    = Some (Amount (category_sum "food" (data <$> proto_transactions)))
  ∧ obj_get (expensesByCategory (calculateAnalytics String.compare proto_transactions))
      "__proto__"
    = None.
Proof.
  assert ("food" ∉ Object_prototype_names) as Hown by not_listed.
  split_and!; [exact ZNumber_exact | exact Hown | |].
  - apply (@expensesByCategory_lookup ZNumber String.compare ZNumber_exact
             proto_transactions [] "food"). exact Hown.
  - apply (@expensesByCategory_lookup ZNumber String.compare ZNumber_exact
             proto_transactions [] "food").
Defined.

Lemma analytics_order_independent_witness :
  ExactArith ZNumber
  ∧ unordered_transactions ≡ₚ reverse unordered_transactions
  ∧ ("food" ∉ Object_prototype_names)
  ∧ balance (calculateAnalytics String.compare unordered_transactions)
    = balance (calculateAnalytics String.compare (reverse unordered_transactions))
  ∧ obj_get (expensesByCategory (calculateAnalytics String.compare unordered_transactions))
      "food"
    = obj_get (expensesByCategory
                 (calculateAnalytics String.compare (reverse unordered_transactions)))
        "food".
Proof.
  assert (unordered_transactions ≡ₚ reverse unordered_transactions) as Hperm
    by (symmetry; apply reverse_Permutation).
  assert ("food" ∉ Object_prototype_names) as Hown by not_listed.
  destruct (@analytics_order_independent ZNumber String.compare ZNumber_exact
              unordered_transactions (reverse unordered_transactions) [] [] "food")
    as [Hclient _].
  destruct (Hclient Hperm) as (_ & _ & Hbalance & Hfood).
  split_and!; [exact ZNumber_exact | exact Hperm | exact Hown | exact Hbalance |].
  exact (Hfood Hown).
Defined.

(** An expense of 5 dated [valueOf-01] and an expense of 2 of January
    2024: the monthly expenses add up to 2. *)
Lemma monthlyData_adds_up_witness :
  ExactArith ZNumber
  ∧ totalExpense (calculateAnalytics String.compare valueOf_transactions) = 7%Z
  ∧ totalExpense (calculateAnalytics String.compare
                    (filter (λ t : Transaction, month_of t ≠ "valueOf") valueOf_transactions))
    = 2%Z
  ∧ foldl num_add num_zero
      ((λ r, expense r)
         <$> monthlyData (calculateAnalytics String.compare valueOf_transactions))
    = totalExpense (calculateAnalytics String.compare
                      (filter (λ t : Transaction, month_of t ≠ "valueOf")
                         valueOf_transactions)).
Proof.
  split_and!; [exact ZNumber_exact | reflexivity | reflexivity |].
  by destruct (@monthlyData_adds_up ZNumber ZNumber_exact String.compare
                 valueOf_transactions []) as [[_ Hexpense] _].
Defined.

Lemma chart_net_is_balance_witness :
  ExactSub ZNumber
  ∧ foldl num_add num_zero
      ((λ i : ChartItem, net i)
         <$> chartData (λ s, s)
               (monthlyData (calculateAnalytics String.compare unordered_transactions)))
    = balance (calculateAnalytics String.compare
                 (filter (λ t : Transaction, month_of t ≠ "valueOf") unordered_transactions)).
Proof.
  split; [exact ZNumber_exact_sub|].
  by destruct (@chart_net_is_balance ZNumber ZNumber_exact_sub String.compare (λ s, s)
                 unordered_transactions []) as [Hclient _].
Defined.

Lemma add_then_delete_local_witness :
  (∀ t' : Transaction, t' ∈ transactions sample_state →
     id t' ≠ new_transactionId sample_client_env)
  ∧ transactions
      (deleteTransactionLocal String.compare
         (id (addTransactionLocal String.compare sample_client_env
                (sample_data Expense 30 "transport" "2024-02-02") sample_state).1)
         (addTransactionLocal String.compare sample_client_env
            (sample_data Expense 30 "transport" "2024-02-02") sample_state).2)
    = transactions sample_state.
Proof.
  assert (∀ t' : Transaction, t' ∈ transactions sample_state →
            id t' ≠ new_transactionId sample_client_env) as Hfresh.
  { intros t' Hin. cbn in Hin.
    repeat (apply elem_of_cons in Hin as [-> | Hin]); [done | done | done |].
    by apply elem_of_nil in Hin. }
  split; [exact Hfresh|].
  by destruct (add_then_delete_local String.compare sample_client_env
                 (sample_data Expense 30 "transport" "2024-02-02") sample_state Hfresh)
    as (Hlist & _).
Defined.

Lemma handleInputChange_spec_witness :
  NoDup (obj_keys sample_formData)
  ∧ obj_get (handleInputChange "type" "income" sample_formData) "type" = Some "income"
  ∧ obj_get (handleInputChange "type" "income" sample_formData) "category" = Some ""
  ∧ obj_get (handleInputChange "type" "income" sample_formData) "amount" = Some "12".
Proof.
  assert (NoDup (obj_keys sample_formData)) as Hnd.
  { cbn. repeat (apply NoDup_cons; split; [set_solver|]). apply NoDup_nil_2. }
  split; [exact Hnd|].
  destruct (handleInputChange_spec "type" "income" sample_formData Hnd) as [_ Hget].
  split_and!; by rewrite Hget.
Defined.

Lemma form_submission_validated_witness :
  NoDup (obj_keys sample_formData)
  ∧ obj_get sample_formData "type" = Some "expense"
  ∧ obj_get sample_formData "amount" = Some "12"
  ∧ obj_get sample_formData "category" = Some "food"
  ∧ ∃ response transaction,
      post_transactions sample_parseFloat "TypeError" (sample_env "")
        (Some (form_body sample_formData)) sample_store
      = (response,
         kv_set ("transaction:" +:+ new_transactionId (sample_env "")) (JObj transaction)
           sample_store)
      ∧ status response = 200
      ∧ obj_get transaction "type" = Some (JStr "expense")
      ∧ obj_get transaction "amount" = Some (JNum (sample_parseFloat (JStr "12")))
      ∧ obj_get transaction "category" = Some (JStr "food").
Proof.
  assert (NoDup (obj_keys sample_formData)) as Hnd.
  { cbn. repeat (apply NoDup_cons; split; [set_solver|]). apply NoDup_nil_2. }
  split_and!; [exact Hnd | reflexivity | reflexivity | reflexivity |].
  destruct (form_submission_validated sample_parseFloat "TypeError" (sample_env "")
              sample_formData sample_store "expense" "12" "food" Hnd eq_refl eq_refl eq_refl)
    as [Haccepted _].
  apply Haccepted. done.
Defined.
